(** * Structure generator: the scaffold engine of [generate_structure.py]

    A shallow embedding of the [StructureGenerator] class: the directory
    plan, the per-group file maps, [_write_file], [create_structure], [run]
    and [main], over a model of pathlib paths and of a POSIX directory tree.

    The text of the static template methods is payload data; it is kept as a
    named constant ([Static]) and never inspected.  The three per-service
    templates are embedded in full. *)

From Stdlib Require Import String Ascii List Bool Arith Lia.
From stdpp Require Import base option list gmap strings.

Local Open Scope string_scope.
Local Open Scope list_scope.

(** ** Python string operations used by the generator *)

Definition nl : string := String (ascii_of_nat 10) EmptyString.
Definition dq : string := String (ascii_of_nat 34) EmptyString.
Definition slash : ascii := ascii_of_nat 47.
Definition hyphen : ascii := ascii_of_nat 45.
Definition space : ascii := ascii_of_nat 32.

(** [unlines] writes a multi-line literal one source line per element;
    every line, the last included, ends with a newline. *)
Definition unlines (ls : list string) : string :=
  String.concat EmptyString (map (fun l => l +:+ nl) ls).

(** [s.split(sep)] for a one-character separator: never empty. *)
Fixpoint split (sep : ascii) (s : string) : list string :=
  match s with
  | EmptyString => [EmptyString]
  | String c r =>
      if Ascii.eqb c sep then EmptyString :: split sep r
      else match split sep r with
           | w :: ws => String c w :: ws
           | [] => [String c EmptyString]
           end
  end.

(** [sep.join(parts)] *)
Definition join (sep : string) (parts : list string) : string :=
  String.concat sep parts.

(** [s.replace(a, b)] for one-character [a] and [b]. *)
Fixpoint replace (a b : ascii) (s : string) : string :=
  match s with
  | EmptyString => EmptyString
  | String c r => String (if Ascii.eqb c a then b else c) (replace a b r)
  end.

Definition is_lower (c : ascii) : bool :=
  ((97 <=? nat_of_ascii c) && (nat_of_ascii c <=? 122))%nat.
Definition is_upper (c : ascii) : bool :=
  ((65 <=? nat_of_ascii c) && (nat_of_ascii c <=? 90))%nat.
Definition to_upper (c : ascii) : ascii :=
  if is_lower c then ascii_of_nat (nat_of_ascii c - 32) else c.
Definition to_lower (c : ascii) : ascii :=
  if is_upper c then ascii_of_nat (nat_of_ascii c + 32) else c.

(** [s.title()] on ASCII text: a cased letter that follows an uncased
    character is upper-cased, one that follows a cased letter is
    lower-cased.  Bytes outside ASCII count as uncased. *)
Fixpoint title_from (previous_is_cased : bool) (s : string) : string :=
  match s with
  | EmptyString => EmptyString
  | String c r =>
      if is_lower c then
        String (if previous_is_cased then c else to_upper c) (title_from true r)
      else if is_upper c then
        String (if previous_is_cased then to_lower c else c) (title_from true r)
      else String c (title_from false r)
  end.
Definition title (s : string) : string := title_from false s.

(** [needle in s] *)
Fixpoint starts_with (needle s : string) : bool :=
  match needle, s with
  | EmptyString, _ => true
  | String a n, String b r => Ascii.eqb a b && starts_with n r
  | String _ _, EmptyString => false
  end.

Fixpoint contains (needle s : string) : bool :=
  starts_with needle s ||
  match s with
  | EmptyString => false
  | String _ r => contains needle r
  end.

(** The text of [s] from the first occurrence of [marker] on; empty when
    [marker] does not occur. *)
Fixpoint text_from (marker s : string) : string :=
  if starts_with marker s then s
  else match s with
       | EmptyString => EmptyString
       | String _ r => text_from marker r
       end.

(** ** pathlib: pure POSIX paths as their [parts] *)

Abbreviation path := (list string) (only parsing).

Definition is_absolute (s : string) : bool :=
  match s with String c _ => Ascii.eqb c slash | EmptyString => false end.

(** The anchor of an absolute path: ["//"] for exactly two leading
    slashes, ["/"] otherwise. *)
Definition anchor (s : string) : path :=
  match s with
  | String a (String b EmptyString) =>
      if Ascii.eqb a slash && Ascii.eqb b slash then ["//"]
      else if Ascii.eqb a slash then ["/"] else []
  | String a (String b (String c _)) =>
      if Ascii.eqb a slash && Ascii.eqb b slash && negb (Ascii.eqb c slash)
      then ["//"]
      else if Ascii.eqb a slash then ["/"] else []
  | String a EmptyString => if Ascii.eqb a slash then ["/"] else []
  | EmptyString => []
  end.

Definition is_anchor (c : string) : bool :=
  String.eqb c "/" || String.eqb c "//".

Definition plain_component (c : string) : bool :=
  negb (String.eqb c EmptyString) && negb (String.eqb c ".").

(** [Path(s)]: empty and ["."] components are dropped, [".."] is kept. *)
Definition Path (s : string) : path :=
  anchor s ++ filter plain_component (split slash s).

(** [p / s] *)
Definition joinpath (p : path) (s : string) : path :=
  if is_absolute s then Path s else p ++ Path s.

(** [p.parent] *)
Definition parent (p : path) : path :=
  match p with
  | [c] => if is_anchor c then p else []
  | _ => removelast p
  end.

(** ** The directory tree the generator writes to *)

(** File contents.  [Lit s] is text built by the generator itself;
    [Static origin] stands for the string literal returned by the static
    template method [origin] (payload text). *)
Inductive text :=
| Lit (s : string)
| Static (origin : string).

Inductive node :=
| Dir
| File (content : text).

#[global] Instance text_eq_dec : EqDecision text.
Proof. solve_decision. Defined.
#[global] Instance node_eq_dec : EqDecision node.
Proof. solve_decision. Defined.

(** A tree maps the parts of a path to what is there; paths are compared
    by their parts (no symbolic links, [".."] is an ordinary name).
    - [denied] lists the paths the process may not write to: no
      directory can be made there and no file opened for writing, and
      nothing can be created in such a directory ([PermissionError]).
    - [umask_read_only] tells that the umask of the process clears its
      own write permission (and that it is not privileged): a directory
      or file it creates gets the mode [0o777 & ~umask] or
      [0o666 & ~umask], so the process may not write to it afterwards.
    - [failing] lists the paths at which the data of a file cannot be
      stored (disk full, file-size limit): [open] succeeds there and
      creates or truncates the file, then the write raises [OSError] and
      leaves in the file the text given here, a part of the content,
      possibly empty. *)
Record fs := { tree : gmap path node;
               denied : gset path;
               umask_read_only : bool;
               failing : gmap path text }.

(** [OSError] is the exception of a failed write ([ENOSPC], [EFBIG]):
    it has no subclass of its own; the five before it are subclasses of
    [OSError]. *)
Inductive exn :=
| AttributeError (attribute : string)
| FileExistsError (p : path)
| FileNotFoundError (p : path)
| NotADirectoryError (p : path)
| IsADirectoryError (p : path)
| PermissionError (p : path)
| OSError
| SystemExit (code : nat).

(** [isinstance(e, Exception)]: [SystemExit] derives from
    [BaseException] only. *)
Definition is_Exception (e : exn) : bool :=
  match e with SystemExit _ => false | _ => true end.

(** [isinstance(e, OSError)] *)
Definition is_OSError (e : exn) : bool :=
  match e with AttributeError _ | SystemExit _ => false | _ => true end.

(** The working directory and the root always exist. *)
Definition node_at (w : fs) (p : path) : option node :=
  match p with
  | [] => Some Dir
  | [c] => if is_anchor c then Some Dir else tree w !! p
  | _ => tree w !! p
  end.

(** The process may not write to [q]. *)
Definition refused (w : fs) (q : path) : bool := bool_decide (q ∈ denied w).

(** The permissions after the process has created [p]: under a umask
    that clears its write permission it may not write to [p]. *)
Definition created (p : path) (w : fs) : gset path :=
  if umask_read_only w then {[p]} ∪ denied w else denied w.

(** A new directory. *)
Definition add_dir (p : path) (w : fs) : fs :=
  {| tree := <[p := Dir]> (tree w); denied := created p w;
     umask_read_only := umask_read_only w; failing := failing w |}.

(** A new, empty file. *)
Definition add_file (p : path) (w : fs) : fs :=
  {| tree := <[p := File (Lit EmptyString)]> (tree w);
     denied := created p w;
     umask_read_only := umask_read_only w; failing := failing w |}.

(** The file at [p] with the given content, its mode as it was. *)
Definition put_file (p : path) (content : text) (w : fs) : fs :=
  {| tree := <[p := File content]> (tree w); denied := denied w;
     umask_read_only := umask_read_only w; failing := failing w |}.

(** [p.mkdir(parents=True, exist_ok=True)] for [p = done ++ rest]: the
    components are visited from the top; an existing directory is kept, a
    missing one is created in its parent [done] if the process may write
    there, a regular file on the way makes the call raise.  Missing
    parents get the default mode, as the path itself does. *)
Fixpoint mkdir_chain (done : path) (rest : list string) (w : fs)
  : fs * option exn :=
  match rest with
  | [] => (w, None)
  | c :: rest' =>
      let p := done ++ [c] in
      match node_at w p with
      | Some Dir => mkdir_chain p rest' w
      | Some (File _) =>
          (w, Some (match rest' with
                    | [] => FileExistsError p
                    | _ => NotADirectoryError (done ++ rest)
                    end))
      | None =>
          if refused w p || refused w done then (w, Some (PermissionError p))
          else mkdir_chain p rest' (add_dir p w)
      end
  end.

Definition mkdir_parents (p : path) (w : fs) : fs * option exn :=
  mkdir_chain [] p w.

(** [f.write(content)] and the closing of the file opened at [p], which
    is empty at this point: the content is stored, or the write fails
    and leaves a part of it. *)
Definition write_data (p : path) (content : text) (w : fs)
  : fs * option exn :=
  match failing w !! p with
  | Some part => (put_file p part w, Some OSError)
  | None => (put_file p content w, None)
  end.

(** [with open(p, 'w', encoding='utf-8') as f: f.write(content)]:
    [open] creates the file, or truncates the one that is there, before
    anything is written. *)
Definition open_write (p : path) (content : text) (w : fs)
  : fs * option exn :=
  match node_at w (parent p) with
  | None => (w, Some (FileNotFoundError p))
  | Some (File _) => (w, Some (NotADirectoryError p))
  | Some Dir =>
      match node_at w p with
      | Some Dir => (w, Some (IsADirectoryError p))
      | Some (File _) =>
          if refused w p then (w, Some (PermissionError p))
          else write_data p content (put_file p (Lit EmptyString) w)
      | None =>
          if refused w p || refused w (parent p)
          then (w, Some (PermissionError p))
          else write_data p content (add_file p w)
      end
  end.

(** ** Effects and the script monad *)

(** Lines printed on standard output, one constructor per [print]. *)
Inductive line :=
| Creating (project_name : string)
| CreatedDirectories (count : nat)
| StructureCreated
| ProjectLocation (base : path)
| NextSteps
| StepCd (project_name : string)
| StepCompose
| StepSetup
| ErrorCreating (e : exn).

Inductive op :=
| Print (l : line)
| Call (method : string) (args : list string)
| Mkdir (p : path)
| OpenWrite (p : path) (content : text).

#[global] Instance exn_eq_dec : EqDecision exn.
Proof. solve_decision. Defined.
#[global] Instance line_eq_dec : EqDecision line.
Proof. solve_decision. Defined.
#[global] Instance op_eq_dec : EqDecision op.
Proof. solve_decision. Defined.

(** A method body denotes the effects it requests, in order, and how it
    ends: with a value, or with an exception raised by the code itself.
    No code below [run] handles an exception or inspects the tree, so the
    effects requested do not depend on the tree; [exec] below performs
    them and stops at the first one the file system refuses. *)
Record M (A : Type) := Script { effects : list op; outcome : exn + A }.
Arguments Script {A} _ _.
Arguments effects {A} _.
Arguments outcome {A} _.

#[global] Instance M_ret : MRet M := λ A a, Script [] (inr a).
#[global] Instance M_bind : MBind M := λ A B k m,
  match outcome m with
  | inl e => Script (effects m) (inl e)
  | inr a => let r := k a in Script (effects m ++ effects r) (outcome r)
  end.

Definition raise {A : Type} (e : exn) : M A := Script [] (inl e).
Definition effect (o : op) : M unit := Script [o] (inr tt).

(** [for x in l: body(x)] *)
Fixpoint for_each {A : Type} (l : list A) (body : A → M unit) : M unit :=
  match l with
  | [] => mret tt
  | x :: r => body x ;; for_each r body
  end.

(** Python dictionaries keep insertion order; assigning an existing key
    keeps its position. *)
Definition dict := list (string * text).

Fixpoint dict_set (k : string) (v : text) (d : dict) : dict :=
  match d with
  | [] => [(k, v)]
  | (k', v') :: r =>
      if String.eqb k k' then (k, v) :: r else (k', v') :: dict_set k v r
  end.

(** [d.update(e)], and [{**d, **e}] on a fresh copy *)
Definition dict_update (d e : dict) : dict :=
  fold_left (λ acc kv, dict_set kv.1 kv.2 acc) e d.

(** A dictionary display [{k1: e1, k2: e2, ...}]: the values are
    evaluated in order before the dictionary exists. *)
Fixpoint dict_display_from (d : dict) (entries : list (string * M text))
  : M dict :=
  match entries with
  | [] => mret d
  | (k, e) :: r => v ← e; dict_display_from (dict_set k v d) r
  end.
Definition dict_display (entries : list (string * M text)) : M dict :=
  dict_display_from [] entries.

(** ** Performing a script *)

Definition step (o : op) (w : fs) : fs * option exn :=
  match o with
  | Print _ | Call _ _ => (w, None)
  | Mkdir p => mkdir_parents p w
  | OpenWrite p content => open_write p content w
  end.

(** What a run leaves: the tree, the effects performed in order, and the
    exception that ended it, if any. *)
Record result := { final : fs; performed : list op; raised : option exn }.

Fixpoint exec (ops : list op) (w : fs) : result :=
  match ops with
  | [] => {| final := w; performed := []; raised := None |}
  | o :: r =>
      match step o w with
      | (w', Some e) => {| final := w'; performed := []; raised := Some e |}
      | (w', None) =>
          let res := exec r w' in
          {| final := final res; performed := o :: performed res;
             raised := raised res |}
      end
  end.

Definition perform {A : Type} (m : M A) (w : fs) : result :=
  let res := exec (effects m) w in
  match raised res, outcome m with
  | None, inl e =>
      {| final := final res; performed := performed res; raised := Some e |}
  | _, _ => res
  end.

(** ** The class *)

Record StructureGenerator := { project_name : string; base_path : path }.

Definition default_project_name : string := "prism-carbon-registry".

(** [__init__(self, project_name="prism-carbon-registry")] *)
Definition __init__ (project_name : option string) : StructureGenerator :=
  let name := default default_project_name project_name in
  {| project_name := name; base_path := Path name |}.

(** *** Content generation methods *)

(** The [_get_*] methods the class defines, in source order.  Every other
    [self._get_*] attribute the builders ask for does not exist. *)
Definition class_methods : list string :=
  [ "_get_main_readme";
    "_get_gitignore";
    "_get_env_example";
    "_get_docker_compose";
    "_get_docker_compose_prod";
    "_get_makefile";
    "_get_database_base";
    "_get_database_session";
    "_get_database_utils";
    "_get_models_base";
    "_get_user_model";
    "_get_project_model";
    "_get_enums";
    "_get_auth_middleware";
    "_get_auth_decorators";
    "_get_jwt_handler";
    "_get_message_types";
    "_get_publishers";
    "_get_environment";
    "_get_business_exceptions";
    "_get_exception_handlers";
    "_get_validation_utils";
    "_get_service_main";
    "_get_service_dockerfile";
    "_get_service_requirements";
    "_get_user_service_files";
    "_get_frontend_package_json";
    "_get_setup_script";
    "_get_ci_workflow";
    "_get_carbon_token_contract";
    "_get_hedera_client";
    "_get_settings";
    "_get_exceptions_base";
    "_get_logging_setup";
    "_get_logging_formatters";
    "_get_frontend_app_tsx";
    "_get_api_client";
    "_get_k8s_namespace";
    "_get_terraform_main";
    "_get_prometheus_config" ].

(** [self.<name>] for a method the class may lack. *)
Definition getattr (name : string) : M unit :=
  if bool_decide (name ∈ class_methods) then mret tt
  else raise (AttributeError name).

(** [self.<name>()] for a template method without parameters: its body
    is one string literal. *)
Definition self_get (name : string) : M text :=
  getattr name ;; effect (Call name []) ;; mret (Static name).

Definition quoted (s : string) : string := dq +:+ s +:+ dq.

Definition _get_service_main (service_name : string) : string :=
  let display := title (replace hyphen space service_name) in
  unlines
    [ dq +:+ dq +:+ dq;
      display +:+ " Service Main Application";
      dq +:+ dq +:+ dq;
      EmptyString;
      "from fastapi import FastAPI, HTTPException";
      "from fastapi.middleware.cors import CORSMiddleware";
      "from packages.common.logging.setup import setup_logging";
      "from packages.common.config.settings import get_settings";
      "import logging";
      EmptyString;
      "# Setup logging";
      "setup_logging()";
      "logger = logging.getLogger(__name__)";
      EmptyString;
      "# Get settings";
      "settings = get_settings()";
      EmptyString;
      "# Create FastAPI app";
      "app = FastAPI(";
      "    title=" +:+ quoted (display +:+ " Service") +:+ ",";
      "    description="
        +:+ quoted ("PRISM Carbon Registry - " +:+ display +:+ " Service")
        +:+ ",";
      "    version=" +:+ quoted "1.0.0" +:+ ",";
      ")";
      EmptyString;
      "# Add CORS middleware";
      "app.add_middleware(";
      "    CORSMiddleware,";
      "    allow_origins=[" +:+ quoted "*"
        +:+ "],  # Configure appropriately for production";
      "    allow_credentials=True,";
      "    allow_methods=[" +:+ quoted "*" +:+ "],";
      "    allow_headers=[" +:+ quoted "*" +:+ "],";
      ")";
      EmptyString;
      "@app.get(" +:+ quoted "/" +:+ ")";
      "async def root():";
      "    return {" +:+ quoted "message" +:+ ": "
        +:+ quoted (display +:+ " Service is running") +:+ "}";
      EmptyString;
      "@app.get(" +:+ quoted "/health" +:+ ")";
      "async def health_check():";
      "    return {" +:+ quoted "status" +:+ ": " +:+ quoted "healthy" +:+ ", "
        +:+ quoted "service" +:+ ": " +:+ quoted service_name +:+ "}";
      EmptyString;
      "if __name__ == " +:+ quoted "__main__" +:+ ":";
      "    import uvicorn";
      "    uvicorn.run(app, host=" +:+ quoted "0.0.0.0" +:+ ", port=8000)" ].

Definition _get_service_dockerfile (service_name : string) : string :=
  unlines
    [ "FROM python:3.11-slim";
      EmptyString;
      "WORKDIR /app";
      EmptyString;
      "# Install system dependencies";
      "RUN apt-get update && apt-get install -y \";
      "    gcc \";
      "    && rm -rf /var/lib/apt/lists/*";
      EmptyString;
      "# Copy requirements and install Python dependencies";
      "COPY requirements.txt .";
      "RUN pip install --no-cache-dir -r requirements.txt";
      EmptyString;
      "# Copy application code";
      "COPY . .";
      EmptyString;
      "# Expose port";
      "EXPOSE 8000";
      EmptyString;
      "# Health check";
      "HEALTHCHECK --interval=30s --timeout=30s --start-period=5s --retries=3 \";
      "    CMD curl -f http://localhost:8000/health || exit 1";
      EmptyString;
      "# Run application";
      "CMD [" +:+ quoted "uvicorn" +:+ ", " +:+ quoted "app.main:app" +:+ ", "
        +:+ quoted "--host" +:+ ", " +:+ quoted "0.0.0.0" +:+ ", "
        +:+ quoted "--port" +:+ ", " +:+ quoted "8000" +:+ "]" ].

(** [d.get(k, default)] on a dictionary of strings *)
Fixpoint dict_get (d : list (string * string)) (k default : string) : string :=
  match d with
  | [] => default
  | (k', v) :: r => if String.eqb k k' then v else dict_get r k default
  end.

Definition _get_service_requirements (service_name : string) : string :=
  let base_requirements :=
    unlines
      [ "fastapi>=0.104.0";
        "uvicorn[standard]>=0.24.0";
        "pydantic>=2.4.0";
        "sqlalchemy>=2.0.0";
        "alembic>=1.12.0";
        "psycopg2-binary>=2.9.0";
        "redis>=5.0.0";
        "celery>=5.3.0";
        "python-multipart>=0.0.6";
        "python-jose[cryptography]>=3.3.0";
        "passlib[bcrypt]>=1.7.4";
        "python-dotenv>=1.0.0";
        "requests>=2.31.0" ] in
  let service_specific :=
    [ ("user-service", unlines ["bcrypt>=4.0.0"; "email-validator>=2.0.0"]);
      ("project-service",
       unlines ["PyPDF2>=3.0.0"; "Pillow>=10.0.0"; "openai>=1.0.0"]);
      ("validation-service", unlines ["scikit-learn>=1.3.0"; "numpy>=1.24.0"]);
      ("registry-service", unlines ["web3>=6.0.0"; "ipfshttpclient>=0.8.0"]);
      ("exchange-service", unlines ["websockets>=11.0.0"]);
      ("dmrv-service", unlines ["gdal>=3.7.0"; "rasterio>=1.3.0"]) ] in
  base_requirements +:+ dict_get service_specific service_name EmptyString.

(** The three static entries of [_get_user_service_files]. *)
Definition _get_user_service_files : dict :=
  [ ("app/domain/entities/user.py",
     Static "_get_user_service_files[app/domain/entities/user.py]");
    ("app/domain/services/user_service.py",
     Static "_get_user_service_files[app/domain/services/user_service.py]");
    ("app/presentation/api/v1/routes/users.py",
     Static "_get_user_service_files[app/presentation/api/v1/routes/users.py]") ].

(** Calls of the methods above through [self]. *)
Definition self_get_service_main (service_name : string) : M text :=
  getattr "_get_service_main" ;;
  effect (Call "_get_service_main" [service_name]) ;;
  mret (Lit (_get_service_main service_name)).
Definition self_get_service_dockerfile (service_name : string) : M text :=
  getattr "_get_service_dockerfile" ;;
  effect (Call "_get_service_dockerfile" [service_name]) ;;
  mret (Lit (_get_service_dockerfile service_name)).
Definition self_get_service_requirements (service_name : string) : M text :=
  getattr "_get_service_requirements" ;;
  effect (Call "_get_service_requirements" [service_name]) ;;
  mret (Lit (_get_service_requirements service_name)).
(** [self.<name>()] for a method returning a dictionary [files]; for a
    method the class lacks, [getattr] raises before [files] is used. *)
Definition self_get_files (name : string) (files : dict) : M dict :=
  getattr name ;; effect (Call name []) ;; mret files.

(** *** The engine *)

Definition _write_file (self : StructureGenerator)
    (directory filename : string) (content : text) : M unit :=
  let file_path :=
    if negb (String.eqb directory EmptyString)
    then joinpath (joinpath (base_path self) directory) filename
    else joinpath (base_path self) filename in
  (* Create directory if it doesn't exist *)
  effect (Mkdir (parent file_path)) ;;
  effect (OpenWrite file_path content).

Definition directories : list string :=
  [ EmptyString;
    "packages/common/database";
    "packages/common/models";
    "packages/common/auth";
    "packages/common/messaging";
    "packages/common/config";
    "packages/common/exceptions";
    "packages/common/logging";
    "packages/common/utils";
    "packages/blockchain/hedera";
    "packages/blockchain/contracts";
    "packages/blockchain/interfaces";
    "services/api-gateway/app/middleware";
    "services/api-gateway/app/routing";
    "services/api-gateway/app/auth";
    "services/api-gateway/config";
    "services/user-service/app/domain/entities";
    "services/user-service/app/domain/services";
    "services/user-service/app/domain/repositories";
    "services/user-service/app/domain/exceptions";
    "services/user-service/app/infrastructure/database/repositories";
    "services/user-service/app/infrastructure/database/migrations";
    "services/user-service/app/infrastructure/external";
    "services/user-service/app/infrastructure/messaging";
    "services/user-service/app/application/commands";
    "services/user-service/app/application/queries";
    "services/user-service/app/application/dto";
    "services/user-service/app/application/events";
    "services/user-service/app/presentation/api/v1/routes";
    "services/user-service/app/presentation/api/v1/schemas";
    "services/user-service/app/presentation/api/middleware";
    "services/user-service/app/presentation/events";
    "services/user-service/tests/unit";
    "services/user-service/tests/integration";
    "services/user-service/alembic";
    "services/project-service/app/domain/entities";
    "services/project-service/app/domain/services";
    "services/project-service/app/domain/repositories";
    "services/project-service/app/infrastructure/database";
    "services/project-service/app/infrastructure/file_storage";
    "services/project-service/app/infrastructure/ai";
    "services/project-service/app/application/commands";
    "services/project-service/app/application/queries";
    "services/project-service/app/application/dto";
    "services/project-service/app/presentation/api/v1/routes";
    "services/project-service/app/presentation/api/v1/schemas";
    "services/project-service/tests";
    "services/validation-service/app/domain/entities";
    "services/validation-service/app/domain/services";
    "services/validation-service/app/domain/repositories";
    "services/validation-service/app/infrastructure/ai";
    "services/validation-service/app/infrastructure/blockchain";
    "services/validation-service/app/application";
    "services/validation-service/app/presentation";
    "services/validation-service/tests";
    "services/registry-service/app/domain/entities";
    "services/registry-service/app/domain/services";
    "services/registry-service/app/domain/repositories";
    "services/registry-service/app/infrastructure/blockchain";
    "services/registry-service/app/infrastructure/ipfs";
    "services/registry-service/app/application";
    "services/registry-service/app/presentation";
    "services/registry-service/tests";
    "services/exchange-service/app/domain/entities";
    "services/exchange-service/app/domain/services";
    "services/exchange-service/app/domain/repositories";
    "services/exchange-service/app/infrastructure/matching";
    "services/exchange-service/app/infrastructure/websockets";
    "services/exchange-service/app/application";
    "services/exchange-service/app/presentation";
    "services/exchange-service/tests";
    "services/dmrv-service/app/domain/entities";
    "services/dmrv-service/app/domain/services";
    "services/dmrv-service/app/domain/repositories";
    "services/dmrv-service/app/infrastructure/satellite";
    "services/dmrv-service/app/infrastructure/iot";
    "services/dmrv-service/app/infrastructure/gis";
    "services/dmrv-service/app/infrastructure/ml";
    "services/dmrv-service/app/application";
    "services/dmrv-service/app/presentation";
    "services/dmrv-service/tests";
    "services/governance-service/app/domain/entities";
    "services/governance-service/app/domain/services";
    "services/governance-service/app/domain/repositories";
    "services/governance-service/app/infrastructure";
    "services/governance-service/app/application";
    "services/governance-service/app/presentation";
    "services/governance-service/tests";
    "services/notification-service/app/domain";
    "services/notification-service/app/infrastructure/email";
    "services/notification-service/app/infrastructure/sms";
    "services/notification-service/app/infrastructure/push";
    "services/notification-service/app/application";
    "services/notification-service/app/presentation";
    "services/notification-service/tests";
    "services/file-service/app/domain/entities";
    "services/file-service/app/domain/services";
    "services/file-service/app/domain/repositories";
    "services/file-service/app/infrastructure/storage";
    "services/file-service/app/infrastructure/processing";
    "services/file-service/app/infrastructure/security";
    "services/file-service/app/application";
    "services/file-service/app/presentation";
    "services/file-service/tests";
    "frontend/web-app/public";
    "frontend/web-app/src/components/common";
    "frontend/web-app/src/components/forms";
    "frontend/web-app/src/components/charts";
    "frontend/web-app/src/components/tables";
    "frontend/web-app/src/pages/public";
    "frontend/web-app/src/pages/dashboard";
    "frontend/web-app/src/pages/projects";
    "frontend/web-app/src/pages/validation";
    "frontend/web-app/src/pages/registry";
    "frontend/web-app/src/pages/exchange";
    "frontend/web-app/src/pages/admin";
    "frontend/web-app/src/services/api";
    "frontend/web-app/src/services/auth";
    "frontend/web-app/src/services/websockets";
    "frontend/web-app/src/hooks";
    "frontend/web-app/src/context";
    "frontend/web-app/src/utils";
    "frontend/web-app/src/types";
    "frontend/web-app/src/constants";
    "frontend/web-app/src/assets";
    "frontend/web-app/tests";
    "frontend/web-app/build";
    "frontend/mobile-app/android";
    "frontend/mobile-app/ios";
    "frontend/mobile-app/src";
    "frontend/mobile-app/tests";
    "frontend/admin-panel/src";
    "frontend/admin-panel/tests";
    "infrastructure/kubernetes/base";
    "infrastructure/kubernetes/overlays/development";
    "infrastructure/kubernetes/overlays/staging";
    "infrastructure/kubernetes/overlays/production";
    "infrastructure/kubernetes/charts";
    "infrastructure/terraform/modules";
    "infrastructure/terraform/environments";
    "infrastructure/docker/base";
    "infrastructure/docker/production";
    "infrastructure/monitoring/prometheus";
    "infrastructure/monitoring/grafana";
    "infrastructure/monitoring/alertmanager";
    "tools/scripts";
    "tools/generators";
    "tools/linting";
    "tools/testing";
    "docs/api";
    "docs/architecture";
    "docs/deployment";
    "docs/user-guides";
    "docs/development";
    "tests/integration";
    "tests/e2e";
    "tests/performance";
    "tests/fixtures";
    ".github/workflows" ].

Definition _create_directories (self : StructureGenerator) : M unit :=
  for_each directories (λ directory,
    let path := joinpath (base_path self) directory in
    effect (Mkdir path)) ;;
  effect (Print (CreatedDirectories (length directories))).

(** The loop shared by the builders whose keys are paths below [top]:
    [path_parts = filepath.split("/")],
    [directory = "/".join(top + path_parts[:-1])],
    [filename = path_parts[-1]]. *)
Definition write_each (self : StructureGenerator) (top : list string)
    (files : dict) : M unit :=
  for_each files (λ '(filepath, content),
    let path_parts := split slash filepath in
    let directory := join "/" (top ++ removelast path_parts) in
    let filename := List.last path_parts EmptyString in
    _write_file self directory filename content).

Definition _create_root_files (self : StructureGenerator) : M unit :=
  files ← dict_display
    [ ("README.md", self_get "_get_main_readme");
      (".gitignore", self_get "_get_gitignore");
      (".env.example", self_get "_get_env_example");
      ("docker-compose.yml", self_get "_get_docker_compose");
      ("docker-compose.prod.yml", self_get "_get_docker_compose_prod");
      ("Makefile", self_get "_get_makefile");
      ("requirements.txt", mret (Lit ("# Root level requirements for development tools" +:+ nl +:+ "pytest>=7.0.0" +:+ nl +:+ "black>=22.0.0" +:+ nl +:+ "flake8>=4.0.0" +:+ nl +:+ "mypy>=0.910" +:+ nl +:+ "pre-commit>=2.15.0"))) ];
  for_each files (λ '(filename, content),
    _write_file self EmptyString filename content).

Definition _create_shared_packages (self : StructureGenerator) : M unit :=
  (* Common package files *)
  common_files ← dict_display
    [ ("packages/common/__init__.py", mret (Lit EmptyString));
      ("packages/common/database/__init__.py", mret (Lit EmptyString));
      ("packages/common/database/base.py", self_get "_get_database_base");
      ("packages/common/database/session.py", self_get "_get_database_session");
      ("packages/common/database/utils.py", self_get "_get_database_utils");
      ("packages/common/models/__init__.py", mret (Lit EmptyString));
      ("packages/common/models/base.py", self_get "_get_models_base");
      ("packages/common/models/user.py", self_get "_get_user_model");
      ("packages/common/models/project.py", self_get "_get_project_model");
      ("packages/common/models/enums.py", self_get "_get_enums");
      ("packages/common/auth/__init__.py", mret (Lit EmptyString));
      ("packages/common/auth/jwt_handler.py", self_get "_get_jwt_handler");
      ("packages/common/auth/middleware.py", self_get "_get_auth_middleware");
      ("packages/common/auth/decorators.py", self_get "_get_auth_decorators");
      ("packages/common/messaging/__init__.py", mret (Lit EmptyString));
      ("packages/common/messaging/event_bus.py", self_get "_get_event_bus");
      ("packages/common/messaging/message_types.py", self_get "_get_message_types");
      ("packages/common/messaging/publishers.py", self_get "_get_publishers");
      ("packages/common/config/__init__.py", mret (Lit EmptyString));
      ("packages/common/config/settings.py", self_get "_get_settings");
      ("packages/common/config/environment.py", self_get "_get_environment");
      ("packages/common/exceptions/__init__.py", mret (Lit EmptyString));
      ("packages/common/exceptions/base.py", self_get "_get_exceptions_base");
      ("packages/common/exceptions/business.py", self_get "_get_business_exceptions");
      ("packages/common/exceptions/handlers.py", self_get "_get_exception_handlers");
      ("packages/common/logging/__init__.py", mret (Lit EmptyString));
      ("packages/common/logging/setup.py", self_get "_get_logging_setup");
      ("packages/common/logging/formatters.py", self_get "_get_logging_formatters");
      ("packages/common/logging/middleware.py", self_get "_get_logging_middleware");
      ("packages/common/utils/__init__.py", mret (Lit EmptyString));
      ("packages/common/utils/validation.py", self_get "_get_validation_utils");
      ("packages/common/utils/serialization.py", self_get "_get_serialization_utils");
      ("packages/common/utils/helpers.py", self_get "_get_helper_utils") ];
  (* Blockchain package files *)
  blockchain_files ← dict_display
    [ ("packages/blockchain/__init__.py", mret (Lit EmptyString));
      ("packages/blockchain/hedera/__init__.py", mret (Lit EmptyString));
      ("packages/blockchain/hedera/client.py", self_get "_get_hedera_client");
      ("packages/blockchain/hedera/contracts.py", self_get "_get_hedera_contracts");
      ("packages/blockchain/hedera/utils.py", self_get "_get_hedera_utils");
      ("packages/blockchain/contracts/CarbonAssetToken.sol", self_get "_get_carbon_token_contract");
      ("packages/blockchain/interfaces/__init__.py", mret (Lit EmptyString));
      ("packages/blockchain/interfaces/registry.py", self_get "_get_registry_interface") ];
  let all_files := dict_update (dict_update [] common_files) blockchain_files in
  write_each self [] all_files.

Definition _create_service (self : StructureGenerator)
    (service_name : string) : M unit :=
  let service_path := "services/" +:+ service_name in
  (* Basic service files *)
  files ← dict_display
    [ ("Dockerfile", self_get_service_dockerfile service_name);
      ("requirements.txt", self_get_service_requirements service_name);
      ("app/__init__.py", mret (Lit EmptyString));
      ("app/main.py", self_get_service_main service_name);
      ("tests/__init__.py", mret (Lit EmptyString));
      ("tests/conftest.py", self_get "_get_test_conftest");
      ("tests/unit/__init__.py", mret (Lit EmptyString));
      ("tests/integration/__init__.py", mret (Lit EmptyString)) ];
  (* Add service-specific files based on service type *)
  files ←
    (if String.eqb service_name "user-service" then
       extra ← self_get_files "_get_user_service_files" _get_user_service_files;
       mret (dict_update files extra)
     else if String.eqb service_name "project-service" then
       extra ← self_get_files "_get_project_service_files" [];
       mret (dict_update files extra)
     else if String.eqb service_name "api-gateway" then
       extra ← self_get_files "_get_api_gateway_files" [];
       mret (dict_update files extra)
     else mret files);
  write_each self [service_path] files.

Definition services : list string :=
  [ "api-gateway"; "user-service"; "project-service";
    "validation-service"; "registry-service"; "exchange-service";
    "dmrv-service"; "governance-service"; "notification-service";
    "file-service" ].

Definition _create_services (self : StructureGenerator) : M unit :=
  for_each services (λ service, _create_service self service).

Definition _create_frontend (self : StructureGenerator) : M unit :=
  (* Web app files *)
  web_files ← dict_display
    [ ("package.json", self_get "_get_frontend_package_json");
      ("Dockerfile", self_get "_get_frontend_dockerfile");
      ("public/index.html", self_get "_get_frontend_index_html");
      ("src/index.tsx", self_get "_get_frontend_index_tsx");
      ("src/App.tsx", self_get "_get_frontend_app_tsx");
      ("src/components/common/Button.tsx", self_get "_get_button_component");
      ("src/components/common/Modal.tsx", self_get "_get_modal_component");
      ("src/pages/public/HomePage.tsx", self_get "_get_home_page");
      ("src/pages/dashboard/DashboardPage.tsx", self_get "_get_dashboard_page");
      ("src/services/api/client.ts", self_get "_get_api_client");
      ("src/services/auth/authService.ts", self_get "_get_auth_service");
      ("src/hooks/useAuth.ts", self_get "_get_use_auth_hook");
      ("src/context/AuthContext.tsx", self_get "_get_auth_context");
      ("src/types/index.ts", self_get "_get_frontend_types");
      ("src/constants/index.ts", self_get "_get_frontend_constants");
      ("tests/setup.ts", self_get "_get_frontend_test_setup") ];
  write_each self ["frontend/web-app"] web_files.

Definition _create_infrastructure (self : StructureGenerator) : M unit :=
  infra_files ← dict_display
    [ ("kubernetes/base/namespace.yaml", self_get "_get_k8s_namespace");
      ("kubernetes/base/configmap.yaml", self_get "_get_k8s_configmap");
      ("kubernetes/overlays/development/kustomization.yaml", self_get "_get_k8s_kustomization_dev");
      ("terraform/main.tf", self_get "_get_terraform_main");
      ("terraform/variables.tf", self_get "_get_terraform_variables");
      ("terraform/outputs.tf", self_get "_get_terraform_outputs");
      ("monitoring/prometheus/prometheus.yml", self_get "_get_prometheus_config");
      ("monitoring/grafana/dashboard.json", self_get "_get_grafana_dashboard") ];
  write_each self ["infrastructure"] infra_files.

Definition _create_tools (self : StructureGenerator) : M unit :=
  tools_files ← dict_display
    [ ("scripts/setup.sh", self_get "_get_setup_script");
      ("scripts/build.sh", self_get "_get_build_script");
      ("scripts/deploy.sh", self_get "_get_deploy_script");
      ("scripts/test.sh", self_get "_get_test_script");
      ("scripts/migrate.sh", self_get "_get_migrate_script");
      ("linting/pyproject.toml", self_get "_get_pyproject_toml");
      ("linting/.flake8", self_get "_get_flake8_config");
      ("testing/pytest.ini", self_get "_get_pytest_config") ];
  write_each self ["tools"] tools_files.

Definition _create_documentation (self : StructureGenerator) : M unit :=
  docs_files ← dict_display
    [ ("README.md", self_get "_get_docs_readme");
      ("architecture/overview.md", self_get "_get_architecture_overview");
      ("architecture/services.md", self_get "_get_services_architecture");
      ("deployment/local.md", self_get "_get_local_deployment");
      ("deployment/production.md", self_get "_get_production_deployment");
      ("development/getting-started.md", self_get "_get_getting_started");
      ("development/contributing.md", self_get "_get_contributing_guide");
      ("api/openapi.yml", self_get "_get_openapi_spec") ];
  write_each self ["docs"] docs_files.

Definition _create_tests (self : StructureGenerator) : M unit :=
  test_files ← dict_display
    [ ("integration/test_user_flow.py", self_get "_get_integration_test");
      ("e2e/test_project_creation.py", self_get "_get_e2e_test");
      ("performance/test_load.py", self_get "_get_performance_test");
      ("fixtures/sample_data.json", self_get "_get_test_fixtures") ];
  write_each self ["tests"] test_files.

Definition _create_github_workflows (self : StructureGenerator) : M unit :=
  workflow_files ← dict_display
    [ ("ci.yml", self_get "_get_ci_workflow");
      ("cd.yml", self_get "_get_cd_workflow");
      ("security.yml", self_get "_get_security_workflow");
      ("release.yml", self_get "_get_release_workflow") ];
  for_each workflow_files (λ '(filename, content),
    _write_file self ".github/workflows" filename content) ;;
  (* Additional GitHub files *)
  content ← self_get "_get_pr_template";
  _write_file self ".github" "PULL_REQUEST_TEMPLATE.md" content.

Definition create_structure (self : StructureGenerator) : M unit :=
  effect (Print (Creating (project_name self))) ;;
  (* Create all directories *)
  _create_directories self ;;
  (* Create all files *)
  _create_root_files self ;;
  _create_shared_packages self ;;
  _create_services self ;;
  _create_frontend self ;;
  _create_infrastructure self ;;
  _create_tools self ;;
  _create_documentation self ;;
  _create_tests self ;;
  _create_github_workflows self ;;
  effect (Print StructureCreated) ;;
  effect (Print (ProjectLocation (base_path self))) ;;
  effect (Print NextSteps) ;;
  effect (Print (StepCd (project_name self))) ;;
  effect (Print StepCompose) ;;
  effect (Print StepSetup).

(** [run]: [try: self.create_structure()] with
    [except Exception as e: print(...); sys.exit(1)]. *)
Definition run (self : StructureGenerator) (w : fs) : result :=
  let res := perform (create_structure self) w in
  match raised res with
  | Some e =>
      if is_Exception e then
        {| final := final res;
           performed := performed res ++ [Print (ErrorCreating e)];
           raised := Some (SystemExit 1) |}
      else res
  | None => res
  end.

(** [main]: [sys.argv[1] if len(sys.argv) > 1 else "prism-carbon-registry"] *)
Definition main (argv : list string) (w : fs) : result :=
  let project_name :=
    if bool_decide (1 < length argv) then nth 1 argv EmptyString
    else "prism-carbon-registry" in
  let generator := __init__ (Some project_name) in
  run generator w.

(** ** Vocabulary of the statements *)

(** The paths that exist without being in the tree. *)
Definition rooted (q : path) : bool :=
  match q with
  | [] => true
  | [c] => is_anchor c
  | _ => false
  end.

Definition target (o : op) : option path :=
  match o with
  | Mkdir p | OpenWrite p _ => Some p
  | Print _ | Call _ _ => None
  end.

Definition write_target (o : op) : option path :=
  match o with
  | OpenWrite p _ => Some p
  | _ => None
  end.

Definition write_targets (ops : list op) : list path := omap write_target ops.

Definition is_call (o : op) : bool :=
  match o with Call _ _ => true | _ => false end.
Definition is_write (o : op) : bool :=
  match o with OpenWrite _ _ => true | _ => false end.
Definition is_mkdir (o : op) : bool :=
  match o with Mkdir _ => true | _ => false end.
Definition touches_tree (o : op) : bool := is_mkdir o || is_write o.

(** The tree [open(p, 'w')] leaves before anything is written: the
    file is new, or the one that was there is empty. *)
Definition opened (p : path) (w : fs) : fs :=
  match node_at w p with
  | None => add_file p w
  | _ => put_file p (Lit EmptyString) w
  end.

(** Entries can be created in the directory [d], which is there or is
    made first by the same call: the process may write to it, and a
    directory it has to make first must not come out read-only. *)
Definition dir_open (w : fs) (d : path) : bool :=
  negb (refused w d)
  && match node_at w d with
     | Some _ => true
     | None => negb (umask_read_only w)
     end.

(** A directory can be made at [q] in [d], or is there already. *)
Definition creatable (w : fs) (d q : path) : bool :=
  match node_at w q with
  | Some Dir => true
  | Some (File _) => false
  | None => negb (refused w q) && dir_open w d
  end.

Fixpoint chain_clear (done : path) (rest : list string) (w : fs) : bool :=
  match rest with
  | [] => true
  | c :: r => creatable w done (done ++ [c]) && chain_clear (done ++ [c]) r w
  end.

(** Nothing stands in the way of [p.mkdir(parents=True, exist_ok=True)]:
    no regular file on the path, no refusal, and no directory that would
    have to be made read-only before something is made in it. *)
Definition mkdir_clear (w : fs) (p : path) : bool := chain_clear [] p w.

(** Nothing stands in the way of [open(p, 'w')] and of the write, once
    the parent is made: the path is not a directory, the process may
    write to the file that is there, or create one in the parent, and
    the data can be stored. *)
Definition writable (w : fs) (p : path) : bool :=
  match node_at w p with
  | Some Dir => false
  | Some (File _) => negb (refused w p)
  | None => negb (refused w p) && dir_open w (parent p)
  end
  && bool_decide (failing w !! p = None).

(** The permissions change only where something is created: what was
    there keeps its permissions, what is new was not refused and gets
    those the umask leaves. *)
Definition permissions_kept (w w' : fs) (q : path) : Prop :=
  (node_at w q ≠ None ∨ node_at w' q = None → refused w' q = refused w q)
  ∧ (node_at w q = None → node_at w' q ≠ None →
     refused w q = false ∧ refused w' q = umask_read_only w).

(** [w'] has every directory and every file of [w], contents apart, in
    the same environment. *)
Definition extends (w w' : fs) : Prop :=
  umask_read_only w' = umask_read_only w ∧ failing w' = failing w ∧
  ∀ q, (node_at w q = Some Dir → node_at w' q = Some Dir) ∧
       (∀ c, node_at w q = Some (File c) → ∃ c', node_at w' q = Some (File c'))
       ∧ permissions_kept w w' q.

(** [w'] is [w] with directories added. *)
Definition grows (w w' : fs) : Prop :=
  extends w w' ∧
  ∀ q, tree w' !! q = tree w !! q
       ∨ (node_at w q = None ∧ tree w' !! q = Some Dir).

(** [v] is [W] up to the contents of the files at [T]. *)
Definition alike (T : list path) (W v : fs) : Prop :=
  denied v = denied W ∧ umask_read_only v = umask_read_only W
  ∧ failing v = failing W ∧
  ∀ q, tree v !! q = tree W !! q
       ∨ (q ∈ T ∧ ∃ c c', tree W !! q = Some (File c)
                          ∧ tree v !! q = Some (File c')).

(** An empty working directory, writable, with the usual umask. *)
Definition empty_fs : fs :=
  {| tree := ∅; denied := ∅; umask_read_only := false; failing := ∅ |}.

(** The generator [main] builds from the command line. *)
Definition generator (argv : list string) : StructureGenerator :=
  __init__ (Some (if bool_decide (1 < length argv) then nth 1 argv EmptyString
                  else "prism-carbon-registry")).

(** The phases of [create_structure], as the class is written: the value
    of [files] in [_create_root_files], the template calls that build it,
    and the calls [_create_shared_packages] makes before
    [self._get_event_bus] fails. *)
Definition root_files : dict :=
  [ ("README.md", Static "_get_main_readme");
    (".gitignore", Static "_get_gitignore");
    (".env.example", Static "_get_env_example");
    ("docker-compose.yml", Static "_get_docker_compose");
    ("docker-compose.prod.yml", Static "_get_docker_compose_prod");
    ("Makefile", Static "_get_makefile");
    ("requirements.txt",
     Lit ("# Root level requirements for development tools" +:+ nl
          +:+ "pytest>=7.0.0" +:+ nl +:+ "black>=22.0.0" +:+ nl
          +:+ "flake8>=4.0.0" +:+ nl +:+ "mypy>=0.910" +:+ nl
          +:+ "pre-commit>=2.15.0")) ].

Definition root_calls : list op :=
  map (λ m, Call m [])
    [ "_get_main_readme"; "_get_gitignore"; "_get_env_example";
      "_get_docker_compose"; "_get_docker_compose_prod"; "_get_makefile" ].

Definition shared_calls : list op :=
  map (λ m, Call m [])
    [ "_get_database_base"; "_get_database_session"; "_get_database_utils";
      "_get_models_base"; "_get_user_model"; "_get_project_model";
      "_get_enums"; "_get_jwt_handler"; "_get_auth_middleware";
      "_get_auth_decorators" ].

Definition directory_phase (self : StructureGenerator) : list op :=
  map (λ d, Mkdir (joinpath (base_path self) d)) directories
  ++ [Print (CreatedDirectories 159)].

Definition root_writes (self : StructureGenerator) : list op :=
  flat_map (λ '(f, c), [Mkdir (base_path self);
                         OpenWrite (base_path self ++ [f]) c]) root_files.

(** The part of a tree below [b], with paths taken relative to [b]. *)
Definition below (b : path) (t : gmap path node) : gmap path node :=
  list_to_map
    (omap (λ '(p, n), if bool_decide (b `prefix_of` p)
                      then Some (drop (length b) p, n) else None)
          (map_to_list t)).

(** An effect with its path taken relative to [b]. *)
Definition relative_to (b : path) (o : op) : op :=
  match o with
  | Mkdir p => Mkdir (drop (length b) p)
  | OpenWrite p c => OpenWrite (drop (length b) p) c
  | _ => o
  end.

(** The handler of the health endpoint in a generated entry point: its
    text from the [@app.get("/health")] decorator on. *)
Definition health_check_handler (content : string) : string :=
  text_from ("@app.get(" +:+ quoted "/health" +:+ ")") content.

(** A directory in which [.gitignore] cannot be written. *)
Definition gitignore_denied : fs :=
  {| tree := ∅; denied := {[ ["prism-carbon-registry"; ".gitignore"] ]};
     umask_read_only := false; failing := ∅ |}.

(** A tree in which [packages/common/__init__.py] already exists, with
    the content ["old"]: what writing it into an empty directory leaves. *)
Definition with_old_init : fs :=
  final (perform (_write_file (__init__ None) "packages/common" "__init__.py"
                    (Lit "old")) empty_fs).

(** What the script does to the tree, with paths relative to the
    project root. *)
Definition relative_plan : list op :=
  map (λ d, Mkdir (Path d)) directories
  ++ flat_map (λ '(f, c), [Mkdir []; OpenWrite [f] c]) root_files.

(** A tree in which the project root exists and [README.md] is a
    directory. *)
Definition readme_is_a_directory : fs :=
  {| tree := {[ ["prism-carbon-registry"] := Dir;
                ["prism-carbon-registry"; "README.md"] := Dir ]};
     denied := ∅; umask_read_only := false; failing := ∅ |}.

(** A tree in which the project root and an old [README.md] exist and
    no data can be stored in [README.md]: a write there leaves the file
    empty. *)
Definition readme_cannot_be_stored : fs :=
  {| tree := {[ ["prism-carbon-registry"] := Dir;
                ["prism-carbon-registry"; "README.md"] := File (Lit "old") ]};
     denied := ∅; umask_read_only := false;
     failing := {[ ["prism-carbon-registry"; "README.md"]
                   := Lit EmptyString ]} |}.

(** The builders [create_structure] calls after [_create_root_files]. *)
Definition later_builders (self : StructureGenerator) : list (M unit) :=
  [ _create_shared_packages self; _create_services self;
    _create_frontend self; _create_infrastructure self; _create_tools self;
    _create_documentation self; _create_tests self;
    _create_github_workflows self ].

(** The characters of a string. *)
Fixpoint chars (s : string) : list ascii :=
  match s with
  | EmptyString => []
  | String c r => c :: chars r
  end.

(** A word with its first letter in upper case. *)
Definition capitalize (word : string) : string :=
  match word with
  | EmptyString => EmptyString
  | String c r => String (to_upper c) r
  end.

(** The names made of lower-case ASCII letters and hyphens, as the ten
    names of [services] are. *)
Definition kebab_case (s : string) : bool :=
  forallb (λ c, is_lower c || Ascii.eqb c hyphen) (chars s).

(** The local [base_requirements] of [_get_service_requirements]. *)
Definition base_requirements : string :=
  unlines
    [ "fastapi>=0.104.0";
      "uvicorn[standard]>=0.24.0";
      "pydantic>=2.4.0";
      "sqlalchemy>=2.0.0";
      "alembic>=1.12.0";
      "psycopg2-binary>=2.9.0";
      "redis>=5.0.0";
      "celery>=5.3.0";
      "python-multipart>=0.0.6";
      "python-jose[cryptography]>=3.3.0";
      "passlib[bcrypt]>=1.7.4";
      "python-dotenv>=1.0.0";
      "requests>=2.31.0" ].

(** The keys of the local [service_specific] of
    [_get_service_requirements]. *)
Definition services_with_specific_requirements : list string :=
  [ "user-service"; "project-service"; "validation-service";
    "registry-service"; "exchange-service"; "dmrv-service" ].

(** A tree in which a regular file has the name of the project. *)
Definition root_is_a_file : fs :=
  {| tree := {[ ["prism-carbon-registry"] := File (Lit "notes") ]};
     denied := ∅; umask_read_only := false; failing := ∅ |}.

(** A target in which the planned directories are in place, for a
    process whose umask clears its own write permission. *)
Definition directories_in_place : fs :=
  {| tree := tree (final (exec (directory_phase (__init__ None)) empty_fs));
     denied := ∅; umask_read_only := true; failing := ∅ |}.

(** An empty working directory, for a process whose umask clears its
    own write permission. *)
Definition empty_read_only_umask : fs :=
  {| tree := ∅; denied := ∅; umask_read_only := true; failing := ∅ |}.

(** ** The script monad *)

Lemma effects_bind {A B : Type} (m : M A) (k : A → M B) :
  effects (m ≫= k) =
  match outcome m with
  | inl _ => effects m
  | inr a => effects m ++ effects (k a)
  end.
Proof. unfold mbind, M_bind. by destruct (outcome m). Qed.

Lemma outcome_bind {A B : Type} (m : M A) (k : A → M B) :
  outcome (m ≫= k) =
  match outcome m with
  | inl e => inl e
  | inr a => outcome (k a)
  end.
Proof. unfold mbind, M_bind. by destruct (outcome m). Qed.

Lemma for_each_effects {A : Type} (l : list A) (body : A → M unit) :
  (∀ x, outcome (body x) = inr tt) →
  effects (for_each l body) = concat (map (λ x, effects (body x)) l)
  ∧ outcome (for_each l body) = inr tt.
Proof.
  intros Hbody. induction l as [|x l [IHe IHo]]; [done|].
  simpl. rewrite effects_bind, outcome_bind, Hbody. by rewrite IHe, IHo.
Qed.

(** ** The tree *)

Lemma node_at_rooted (w : fs) (q : path) :
  node_at w q = if rooted q then Some Dir else tree w !! q.
Proof.
  destruct q as [|c [|? ?]]; simpl; try done; by destruct (is_anchor c).
Qed.

Lemma node_at_None (w : fs) (q : path) :
  node_at w q = None → rooted q = false ∧ tree w !! q = None.
Proof. rewrite node_at_rooted. by destruct (rooted q). Qed.

Lemma node_at_File (w : fs) (q : path) (c : text) :
  node_at w q = Some (File c) → rooted q = false ∧ tree w !! q = Some (File c).
Proof. rewrite node_at_rooted. by destruct (rooted q). Qed.

Lemma node_at_add_dir (p q : path) (w : fs) :
  node_at w p = None →
  node_at (add_dir p w) q = if decide (p = q) then Some Dir else node_at w q.
Proof.
  intros [Hr Hp]%node_at_None. rewrite !node_at_rooted. simpl.
  rewrite lookup_insert. destruct (decide (p = q)) as [->|]; [by rewrite Hr|done].
Qed.

Lemma node_at_add_dir_eq (p : path) (w : fs) :
  node_at w p = None → node_at (add_dir p w) p = Some Dir.
Proof. intros H. rewrite node_at_add_dir by done. by rewrite decide_True. Qed.

Lemma node_at_put_file (p q : path) (c : text) (w : fs) :
  rooted p = false →
  node_at (put_file p c w) q =
  if decide (p = q) then Some (File c) else node_at w q.
Proof.
  intros Hr. rewrite !node_at_rooted. simpl. rewrite lookup_insert.
  destruct (decide (p = q)) as [->|]; [by rewrite Hr|done].
Qed.

Lemma node_at_add_file (p q : path) (w : fs) :
  rooted p = false →
  node_at (add_file p w) q =
  if decide (p = q) then Some (File (Lit EmptyString)) else node_at w q.
Proof.
  intros Hr. rewrite !node_at_rooted. simpl. rewrite lookup_insert.
  destruct (decide (p = q)) as [->|]; [by rewrite Hr|done].
Qed.

(** *** Permissions *)

Lemma refused_created (p q : path) (w : fs) :
  bool_decide (q ∈ created p w)
  = if decide (p = q) then umask_read_only w || refused w q else refused w q.
Proof.
  unfold created, refused. destruct (umask_read_only w); simpl.
  - destruct (decide (p = q)) as [->|Hne].
    + apply bool_decide_eq_true. apply elem_of_union_l.
      by apply elem_of_singleton.
    + apply bool_decide_ext. rewrite elem_of_union, elem_of_singleton.
      split; [by intros [->|?]|by right].
  - by destruct (decide (p = q)) as [->|].
Qed.

Lemma refused_add_dir (p q : path) (w : fs) :
  refused (add_dir p w) q
  = if decide (p = q) then umask_read_only w || refused w q else refused w q.
Proof. apply refused_created. Qed.

Lemma refused_add_file (p q : path) (w : fs) :
  refused (add_file p w) q
  = if decide (p = q) then umask_read_only w || refused w q else refused w q.
Proof. apply refused_created. Qed.

Lemma refused_put_file (p q : path) (c : text) (w : fs) :
  refused (put_file p c w) q = refused w q.
Proof. done. Qed.

(** Under a umask that leaves the write permission, the permissions
    are those the run started with. *)
Lemma created_usual (p : path) (w : fs) :
  umask_read_only w = false → created p w = denied w.
Proof. unfold created. by intros ->. Qed.

Lemma same_refused (w w' : fs) :
  (∀ q, refused w' q = refused w q) → denied w' = denied w.
Proof.
  intros H. apply set_eq. intros q. specialize (H q). unfold refused in H.
  destruct (decide (q ∈ denied w')) as [Hq|Hq],
           (decide (q ∈ denied w)) as [Hq'|Hq']; [done| | |done]; exfalso.
  - by rewrite bool_decide_eq_true_2, bool_decide_eq_false_2 in H.
  - by rewrite bool_decide_eq_false_2, bool_decide_eq_true_2 in H.
Qed.

(** *** Trees that extend a tree *)

Lemma extends_refl (w : fs) : extends w w.
Proof.
  split; [done|]. split; [done|]. intros q.
  split; [done|]. split; [by intros c ?; exists c|]. split; [done|].
  by intros ->.
Qed.

Lemma extends_node (w w' : fs) (q : path) :
  extends w w' → node_at w q ≠ None → node_at w' q ≠ None.
Proof.
  intros (_ & _ & H) Hq. destruct (H q) as (Hd & Hf & _).
  destruct (node_at w q) as [[|x]|]; [|destruct (Hf x eq_refl) as [y Hy]|done].
  - by rewrite Hd.
  - by rewrite Hy.
Qed.

Lemma extends_refused (w w' : fs) (q : path) :
  extends w w' → node_at w q ≠ None → refused w' q = refused w q.
Proof. intros (_ & _ & H) Hq. destruct (H q) as (_ & _ & Hk & _). auto. Qed.

Lemma extends_missing (w w' : fs) (q : path) :
  extends w w' → node_at w' q = None → refused w' q = refused w q.
Proof. intros (_ & _ & H) Hq. destruct (H q) as (_ & _ & Hk & _). auto. Qed.

Lemma extends_created (w w' : fs) (q : path) :
  extends w w' → node_at w q = None → node_at w' q ≠ None →
  refused w q = false ∧ refused w' q = umask_read_only w.
Proof. intros (_ & _ & H) ? ?. destruct (H q) as (_ & _ & _ & Hk). auto. Qed.

Lemma extends_trans (a b c : fs) : extends a b → extends b c → extends a c.
Proof.
  intros Hab Hbc.
  pose proof Hab as (Hu1 & Hf1 & H1). pose proof Hbc as (Hu2 & Hf2 & H2).
  split; [congruence|]. split; [congruence|]. intros q.
  destruct (H1 q) as (Hd1 & Hfile1 & _), (H2 q) as (Hd2 & Hfile2 & _).
  split; [by intros; apply Hd2, Hd1|]. split.
  { intros x Ha. apply Hfile1 in Ha as [y Hb]. by apply Hfile2 in Hb. }
  destruct (node_at b q) as [n|] eqn:Hb.
  - assert (Hb' : node_at b q ≠ None) by (by rewrite Hb).
    pose proof (extends_node b c q Hbc Hb') as Hc.
    pose proof (extends_refused b c q Hbc Hb') as Hbc'. split.
    + intros [Ha|Hc']; [|done]. rewrite Hbc'. by apply extends_refused.
    + intros Ha _. destruct (extends_created a b q Hab Ha Hb') as [? ?].
      split; [done|congruence].
  - assert (Ha : node_at a q = None).
    { destruct (node_at a q) as [n|] eqn:Ha; [|done].
      exfalso. apply (extends_node a b q Hab); [by rewrite Ha|done]. }
    pose proof (extends_missing a b q Hab Hb) as Hab'. split.
    + intros [?|Hc]; [done|]. rewrite <- Hab'. by apply extends_missing.
    + intros _ Hc. destruct (extends_created b c q Hbc Hb Hc) as [? ?].
      split; congruence.
Qed.

Lemma extends_add_dir (p : path) (w : fs) :
  node_at w p = None → refused w p = false → extends w (add_dir p w).
Proof.
  intros Hn Hr. split; [done|]. split; [done|]. intros q.
  unfold permissions_kept. rewrite node_at_add_dir, refused_add_dir by done.
  destruct (decide (p = q)) as [<-|Hne].
  - rewrite Hn, Hr, orb_false_r. split; [done|]. split; [done|].
    split; [by intros [?|?]|done].
  - split; [done|]. split; [by intros c ?; exists c|]. split; [done|].
    by intros ->.
Qed.

Lemma extends_add_file (p : path) (w : fs) :
  node_at w p = None → refused w p = false → extends w (add_file p w).
Proof.
  intros Hn Hr. pose proof (node_at_None _ _ Hn) as [Hroot _].
  split; [done|]. split; [done|]. intros q.
  unfold permissions_kept. rewrite node_at_add_file, refused_add_file by done.
  destruct (decide (p = q)) as [<-|Hne].
  - rewrite Hn, Hr, orb_false_r. split; [done|]. split; [done|].
    split; [by intros [?|?]|done].
  - split; [done|]. split; [by intros c ?; exists c|]. split; [done|].
    by intros ->.
Qed.

Lemma extends_put_file (p : path) (c0 c : text) (w : fs) :
  node_at w p = Some (File c0) → extends w (put_file p c w).
Proof.
  intros Hf. pose proof (node_at_File _ _ _ Hf) as [Hroot _].
  split; [done|]. split; [done|]. intros q.
  unfold permissions_kept. rewrite node_at_put_file, refused_put_file by done.
  destruct (decide (p = q)) as [<-|Hne].
  - rewrite Hf. split; [done|]. split; [by intros x _; exists c|].
    split; [done|by intros ?].
  - split; [done|]. split; [by intros x ?; exists x|]. split; [done|].
    by intros ->.
Qed.

(** With the usual umask the permissions never change. *)
Lemma extends_denied (w w' : fs) :
  extends w w' → umask_read_only w = false → denied w' = denied w.
Proof.
  intros Hext Hu. apply same_refused. intros q.
  destruct (node_at w q) as [n|] eqn:Hw.
  { apply extends_refused; [done|by rewrite Hw]. }
  destruct (node_at w' q) as [n|] eqn:Hw'.
  - destruct (extends_created w w' q Hext Hw) as [? ?]; [by rewrite Hw'|].
    congruence.
  - by apply extends_missing.
Qed.

(** Once [d] is there, entries can be created in it when they could be
    before, and only then. *)
Lemma dir_open_made (w w' : fs) (d : path) :
  extends w w' → node_at w' d ≠ None → dir_open w' d = dir_open w d.
Proof.
  intros Hext Hd. unfold dir_open.
  destruct (node_at w' d) as [n'|] eqn:Hw'; [|done].
  destruct (node_at w d) as [n|] eqn:Hw.
  - rewrite (extends_refused w w'); [done..|by rewrite Hw].
  - destruct (extends_created w w' d Hext Hw) as [-> ->]; [by rewrite Hw'|].
    by destruct (umask_read_only w).
Qed.

Lemma dir_open_extends (w w' : fs) (d : path) :
  extends w w' → dir_open w d = true → dir_open w' d = true.
Proof.
  intros Hext Hd. destruct (node_at w' d) as [n'|] eqn:Hw'.
  { rewrite (dir_open_made w w'); [done..|by rewrite Hw']. }
  revert Hd. unfold dir_open. rewrite Hw'.
  rewrite (extends_missing w w') by done.
  destruct (node_at w d) as [n|] eqn:Hw.
  { exfalso. apply (extends_node w w' d Hext); [by rewrite Hw|done]. }
  by destruct Hext as (-> & _).
Qed.

(** While the path itself is left alone and its parent is there, what
    can be written is what could be written before. *)
Lemma writable_made (w w' : fs) (p : path) :
  extends w w' → node_at w' p = node_at w p →
  node_at w' (parent p) ≠ None →
  writable w' p = writable w p.
Proof.
  intros Hext Hsame Hpar. pose proof Hext as (_ & Hf & _). unfold writable.
  rewrite Hsame, Hf. f_equal.
  destruct (node_at w p) as [[|c]|] eqn:Hp; [done| |].
  - rewrite (extends_refused w w'); [done..|by rewrite Hp].
  - rewrite (extends_missing w w') by done.
    by rewrite (dir_open_made w w').
Qed.

Lemma writable_extends (w w' : fs) (p : path) :
  extends w w' → node_at w' p = node_at w p →
  writable w p = true → writable w' p = true.
Proof.
  intros Hext Hsame. pose proof Hext as (_ & Hf & _). unfold writable.
  rewrite Hsame, Hf, !andb_true_iff. intros [Hw Hfail]. split; [|done].
  destruct (node_at w p) as [[|c]|] eqn:Hp; [done| |].
  - rewrite (extends_refused w w'); [done..|by rewrite Hp].
  - apply andb_true_iff in Hw as [Hr Hd]. apply andb_true_iff. split.
    + rewrite (extends_missing w w'); [done..|by rewrite Hsame].
    + by eapply dir_open_extends.
Qed.

(** *** Trees with directories added *)

Lemma grows_refl (w : fs) : grows w w.
Proof. split; [apply extends_refl|]. intros q. by left. Qed.

Lemma grows_node_at (w w' : fs) (q : path) :
  grows w w' →
  node_at w' q = node_at w q ∨ (node_at w q = None ∧ node_at w' q = Some Dir).
Proof.
  intros [_ H]. destruct (H q) as [Heq|[Hn Hd]].
  - left. by rewrite !node_at_rooted, Heq.
  - right. split; [done|]. apply node_at_None in Hn as [Hr _].
    by rewrite node_at_rooted, Hr.
Qed.

Lemma grows_trans (a b c : fs) : grows a b → grows b c → grows a c.
Proof.
  intros Hab Hbc. pose proof Hab as [Hd1 H1]. pose proof Hbc as [Hd2 H2].
  split; [by eapply extends_trans|]. intros q.
  destruct (H2 q) as [Heq|[Hn Hd]].
  - rewrite Heq. apply H1.
  - destruct (grows_node_at a b q Hab) as [Hs|[_ Hbd]]; [|congruence].
    right. split; [congruence|done].
Qed.

Lemma grows_add_dir (p : path) (w : fs) :
  node_at w p = None → refused w p = false → grows w (add_dir p w).
Proof.
  intros Hn Hr. split; [by apply extends_add_dir|]. intros q. simpl.
  rewrite lookup_insert.
  destruct (decide (p = q)) as [<-|]; [by right|by left].
Qed.

Lemma grows_extends (w w' : fs) : grows w w' → extends w w'.
Proof. by intros [? _]. Qed.

Lemma grows_dir (w w' : fs) (q : path) :
  grows w w' → node_at w q = Some Dir → node_at w' q = Some Dir.
Proof. intros [(_ & _ & H) _] Hq. by apply H. Qed.

(** *** [mkdir] with parents *)

Lemma mkdir_chain_grows (rest : list string) :
  ∀ (pre : path) (w w' : fs) (e : option exn),
    mkdir_chain pre rest w = (w', e) → grows w w'.
Proof.
  induction rest as [|c rest IH]; intros pre w w' e H; simpl in H.
  - injection H as <- <-. apply grows_refl.
  - destruct (node_at w (pre ++ [c])) as [[|x]|] eqn:Hn.
    + by eapply IH.
    + injection H as <- <-. apply grows_refl.
    + destruct (refused w (pre ++ [c]) || refused w pre) eqn:Hr.
      * injection H as <- <-. apply grows_refl.
      * apply orb_false_elim in Hr as [Hr _].
        eapply grows_trans; [by apply grows_add_dir|by eapply IH].
Qed.

(** Only components of the path itself are created. *)
Lemma mkdir_chain_changes (rest : list string) :
  ∀ (pre : path) (w w' : fs) (e : option exn) (q : path),
    mkdir_chain pre rest w = (w', e) →
    tree w' !! q ≠ tree w !! q →
    ∃ k, k ≠ [] ∧ k `prefix_of` rest ∧ q = pre ++ k.
Proof.
  induction rest as [|c rest IH]; intros pre w w' e q H Hq; simpl in H.
  - by injection H as <- <-.
  - assert (Hsub : ∀ v, mkdir_chain (pre ++ [c]) rest v = (w', e) →
                         tree w' !! q ≠ tree v !! q →
                         ∃ k, k ≠ [] ∧ k `prefix_of` c :: rest ∧ q = pre ++ k).
    { intros v Hv Hne. destruct (IH _ _ _ _ _ Hv Hne) as (k & Hk & Hp & ->).
      exists (c :: k). split; [done|]. split; [by apply prefix_cons|].
      by rewrite <- app_assoc. }
    destruct (node_at w (pre ++ [c])) as [[|x]|] eqn:Hn.
    + by eapply Hsub.
    + by injection H as <- <-.
    + destruct (refused w (pre ++ [c]) || refused w pre).
      * by injection H as <- <-.
      * destruct (decide (tree w' !! q = tree (add_dir (pre ++ [c]) w) !! q))
          as [Heq|Hne]; [|by eapply Hsub].
        rewrite Heq in Hq. simpl in Hq. rewrite lookup_insert in Hq.
        destruct (decide (pre ++ [c] = q)) as [Hpq|Hpq]; [subst q|done].
        exists [c]. split; [done|]. split; [|done].
        apply prefix_cons, prefix_nil.
Qed.

(** After a successful call every component is a directory. *)
Lemma mkdir_chain_ok (rest : list string) :
  ∀ (pre : path) (w w' : fs),
    mkdir_chain pre rest w = (w', None) →
    ∀ k, k ≠ [] → k `prefix_of` rest → node_at w' (pre ++ k) = Some Dir.
Proof.
  induction rest as [|c rest IH]; intros pre w w' H k Hk Hp.
  - apply prefix_nil_inv in Hp. done.
  - destruct k as [|c' k]; [done|].
    pose proof (prefix_cons_inv_1 _ _ _ _ Hp) as ->.
    apply prefix_cons_inv_2 in Hp. simpl in H.
    assert (Hsub : ∀ v, node_at v (pre ++ [c]) = Some Dir →
                         mkdir_chain (pre ++ [c]) rest v = (w', None) →
                         node_at w' (pre ++ c :: k) = Some Dir).
    { intros v Hv Hm. destruct k as [|c2 k].
      - eapply grows_dir; [by eapply mkdir_chain_grows|done].
      - rewrite (cons_middle c pre), app_assoc. by eapply IH. }
    destruct (node_at w (pre ++ [c])) as [[|x]|] eqn:Hn; [by eapply Hsub|done|].
    destruct (refused w (pre ++ [c]) || refused w pre); [done|].
    eapply Hsub; [|done]. by apply node_at_add_dir_eq.
Qed.

(** [exist_ok=True]: on directories that are all there the call does
    nothing and does not raise, whatever their permissions. *)
Lemma mkdir_chain_noop (rest : list string) :
  ∀ (pre : path) (w : fs),
    (∀ k, k ≠ [] → k `prefix_of` rest → node_at w (pre ++ k) = Some Dir) →
    mkdir_chain pre rest w = (w, None).
Proof.
  induction rest as [|c rest IH]; intros pre w H; [done|]. simpl.
  rewrite (H [c]); [|done|apply prefix_cons, prefix_nil].
  apply IH. intros k Hk Hp. rewrite <- app_assoc. apply H; [done|].
  by apply prefix_cons.
Qed.

(** Repeating a call on the tree it left gives the same outcome and
    changes nothing. *)
Lemma mkdir_chain_stable (rest : list string) :
  ∀ (pre : path) (w w' : fs) (e : option exn),
    mkdir_chain pre rest w = (w', e) → mkdir_chain pre rest w' = (w', e).
Proof.
  induction rest as [|c rest IH]; intros pre w w' e H; simpl in H.
  - by injection H as <- <-.
  - assert (Hsub : ∀ v, node_at v (pre ++ [c]) = Some Dir →
                         mkdir_chain (pre ++ [c]) rest v = (w', e) →
                         mkdir_chain pre (c :: rest) w' = (w', e)).
    { intros v Hv Hm. simpl.
      rewrite (grows_dir v w' _ (mkdir_chain_grows _ _ _ _ _ Hm) Hv).
      by eapply IH. }
    destruct (node_at w (pre ++ [c])) as [[|x]|] eqn:Hn.
    + by eapply Hsub.
    + injection H as <- <-. simpl. by rewrite Hn.
    + destruct (refused w (pre ++ [c]) || refused w pre) eqn:Hd.
      * injection H as <- <-. simpl. by rewrite Hn, Hd.
      * eapply Hsub; [|done]. by apply node_at_add_dir_eq.
Qed.

Lemma creatable_grows (w w' : fs) (d q : path) :
  grows w w' → creatable w d q = true → creatable w' d q = true.
Proof.
  intros H. unfold creatable.
  destruct (grows_node_at w w' q H) as [Hq|[-> ->]]; [|done].
  rewrite Hq. destruct (node_at w q) as [[|c]|] eqn:Hw; [done..|].
  rewrite !andb_true_iff. intros [Hr Hd]. split.
  - rewrite extends_missing with (w := w); [done|by apply grows_extends|].
    by rewrite Hq.
  - eapply dir_open_extends; [by apply grows_extends|done].
Qed.

Lemma chain_clear_grows (rest : list string) :
  ∀ (pre : path) (w w' : fs),
    grows w w' → chain_clear pre rest w = true → chain_clear pre rest w' = true.
Proof.
  induction rest as [|c rest IH]; intros pre w w' H; [done|]. simpl.
  rewrite !andb_true_iff. intros [H1 H2]. split.
  - by eapply creatable_grows.
  - by eapply IH.
Qed.

(** A clear path is made, whatever is missing of it. *)
Lemma chain_clear_mkdir (rest : list string) :
  ∀ (pre : path) (w : fs),
    chain_clear pre rest w = true →
    ∃ w', mkdir_chain pre rest w = (w', None).
Proof.
  induction rest as [|c rest IH]; intros pre w; [by exists w|]. simpl.
  rewrite andb_true_iff. unfold creatable at 1. intros [H1 H2].
  destruct (node_at w (pre ++ [c])) as [[|x]|] eqn:Hn; [by apply IH|done|].
  apply andb_true_iff in H1 as [Hq Hd]. apply negb_true_iff in Hq.
  unfold dir_open in Hd. apply andb_true_iff in Hd as [Hd _].
  apply negb_true_iff in Hd. rewrite Hq, Hd. cbn [orb].
  apply IH. eapply chain_clear_grows; [|done]. by apply grows_add_dir.
Qed.

(** Making a directory does not change what stands in the way of the
    directories below it. *)
Lemma chain_clear_add_dir (rest : list string) :
  ∀ (pre p0 : path) (w : fs),
    node_at w p0 = None → (length p0 ≤ length pre)%nat →
    chain_clear pre rest (add_dir p0 w) = chain_clear pre rest w.
Proof.
  induction rest as [|c rest IH]; intros pre p0 w Hn Hlen; [done|].
  cbn [chain_clear]. rewrite IH; [|done|rewrite length_app; simpl; lia].
  f_equal. unfold creatable, dir_open.
  rewrite !node_at_add_dir, !refused_add_dir by done.
  assert (Hc : p0 ≠ pre ++ [c]).
  { intros ->. rewrite length_app in Hlen. simpl in Hlen. lia. }
  rewrite !(decide_False (P := p0 = pre ++ [c])) by done.
  change (umask_read_only (add_dir p0 w)) with (umask_read_only w).
  destruct (decide (p0 = pre)) as [->|Hne]; [|done].
  rewrite Hn. destruct (node_at w (pre ++ [c])) as [[|x]|]; [done..|].
  by destruct (umask_read_only w), (refused w pre), (refused w (pre ++ [c])).
Qed.

(** A call that succeeds had nothing in its way. *)
Lemma mkdir_chain_clear (rest : list string) :
  ∀ (pre : path) (w w' : fs),
    node_at w pre ≠ None →
    mkdir_chain pre rest w = (w', None) → chain_clear pre rest w = true.
Proof.
  induction rest as [|c rest IH]; intros pre w w' Hpre H; [done|].
  simpl in H. cbn [chain_clear]. unfold creatable.
  destruct (node_at w (pre ++ [c])) as [[|x]|] eqn:Hn.
  - eapply IH; [|done]. by rewrite Hn.
  - done.
  - destruct (refused w (pre ++ [c]) || refused w pre) eqn:Hd; [done|].
    apply orb_false_elim in Hd as [Hq Hd]. unfold dir_open.
    rewrite Hq, Hd. destruct (node_at w pre) eqn:Hp; [|done]. cbn [negb andb].
    apply IH in H; [|by rewrite node_at_add_dir_eq].
    by rewrite chain_clear_add_dir in H.
Qed.

(** *** [open] for writing *)

Lemma fs_eq (a b : fs) :
  tree a = tree b → denied a = denied b →
  umask_read_only a = umask_read_only b → failing a = failing b → a = b.
Proof. destruct a, b. simpl. by intros -> -> -> ->. Qed.

Lemma writable_not_rooted (w : fs) (p : path) :
  writable w p = true → rooted p = false.
Proof.
  unfold writable. rewrite node_at_rooted. by destruct (rooted p).
Qed.

Lemma removelast_shorter (x : string) (l : list string) :
  length (removelast (x :: l)) = length l.
Proof.
  revert x. induction l as [|y l IH]; intros x; [done|].
  change (removelast (x :: y :: l)) with (x :: removelast (y :: l)).
  cbn [length]. by rewrite IH.
Qed.

Lemma parent_neq (p : path) : rooted p = false → parent p ≠ p.
Proof.
  destruct p as [|a [|b p]]; [done| |].
  - simpl. by intros ->.
  - intros _ H.
    change (parent (a :: b :: p)) with (removelast (a :: b :: p)) in H.
    apply (f_equal length) in H. rewrite removelast_shorter in H.
    simpl in H. lia.
Qed.

Lemma node_at_opened (p q : path) (w : fs) :
  rooted p = false →
  node_at (opened p w) q =
  if decide (p = q) then Some (File (Lit EmptyString)) else node_at w q.
Proof.
  intros Hr. unfold opened.
  destruct (node_at w p); by rewrite ?node_at_put_file, ?node_at_add_file.
Qed.

Lemma tree_written (p : path) (c : text) (w : fs) :
  tree (put_file p c (opened p w)) = <[p := File c]> (tree w).
Proof.
  unfold opened. destruct (node_at w p); simpl; apply insert_insert_eq.
Qed.

Lemma node_at_written (p q : path) (c : text) (w : fs) :
  rooted p = false →
  node_at (put_file p c (opened p w)) q =
  if decide (p = q) then Some (File c) else node_at w q.
Proof.
  intros Hr. rewrite node_at_put_file, node_at_opened by done.
  by destruct (decide (p = q)).
Qed.

Lemma extends_written (p : path) (c : text) (w : fs) :
  rooted p = false → node_at w p ≠ Some Dir → refused w p = false →
  extends w (put_file p c (opened p w)).
Proof.
  intros Hroot Hp Hr.
  eapply extends_trans; [|eapply extends_put_file].
  - unfold opened. destruct (node_at w p) as [[|x]|] eqn:Hw; [done| |].
    + by eapply extends_put_file.
    + by apply extends_add_file.
  - rewrite node_at_opened by done. by rewrite decide_True.
Qed.

(** With the usual umask a write leaves the permissions as they were. *)
Lemma denied_written (p : path) (c : text) (w : fs) :
  umask_read_only w = false → denied (put_file p c (opened p w)) = denied w.
Proof.
  intros Hu. unfold opened. destruct (node_at w p); simpl; [done|].
  by apply created_usual.
Qed.

(** The outcomes of [open] and of the write that follows: the call is
    refused and changes nothing; or the file is opened, hence created
    or truncated, and then holds the content, or the part of it that a
    failing write leaves. *)
Lemma open_write_cases (p : path) (c : text) (w w' : fs) (e : option exn) :
  open_write p c w = (w', e) →
  (w' = w ∧ ∃ x, e = Some x ∧ x ≠ OSError ∧ is_OSError x = true)
  ∨ (node_at w (parent p) = Some Dir ∧ node_at w p ≠ Some Dir
     ∧ rooted p = false ∧ refused w p = false
     ∧ (node_at w p = None → refused w (parent p) = false)
     ∧ ((failing w !! p = None ∧ e = None
         ∧ w' = put_file p c (opened p w))
        ∨ (∃ part, failing w !! p = Some part ∧ e = Some OSError
                   ∧ w' = put_file p part (opened p w)))).
Proof.
  unfold open_write, write_data, opened. intros H.
  destruct (node_at w (parent p)) as [[|?]|] eqn:Hpar;
    [|left; injection H as <- <-; split; [done|]; by eexists..].
  destruct (node_at w p) as [[|x]|] eqn:Hp.
  - left. injection H as <- <-. split; [done|]. by eexists.
  - destruct (refused w p) eqn:Hr.
    { left. injection H as <- <-. split; [done|]. by eexists. }
    right. apply node_at_File in Hp as [Hroot _].
    split; [done|]. split; [done|]. split; [done|]. split; [done|].
    split; [done|]. cbn [failing put_file] in H.
    destruct (failing w !! p) as [part|] eqn:Hf; injection H as <- <-.
    + right. by exists part.
    + by left.
  - destruct (refused w p || refused w (parent p)) eqn:Hr.
    { left. injection H as <- <-. split; [done|]. by eexists. }
    apply orb_false_elim in Hr as [Hr Hr']. right.
    apply node_at_None in Hp as [Hroot _].
    split; [done|]. split; [done|]. split; [done|]. split; [done|].
    split; [done|]. cbn [failing add_file] in H.
    destruct (failing w !! p) as [part|] eqn:Hf; injection H as <- <-.
    + right. by exists part.
    + by left.
Qed.

Lemma open_write_inv (p : path) (c : text) (w w' : fs) :
  open_write p c w = (w', None) →
  w' = put_file p c (opened p w) ∧ node_at w (parent p) = Some Dir
  ∧ writable w p = true.
Proof.
  intros H.
  destruct (open_write_cases _ _ _ _ _ H)
    as [(_ & x & ? & _)|(Hpar & Hp & Hroot & Hr & Hr' & Hcase)]; [done|].
  destruct Hcase as [(Hf & _ & ->)|(part & _ & ? & _)]; [|done].
  split; [done|]. split; [done|]. unfold writable, dir_open.
  rewrite Hr, Hpar, Hf. rewrite bool_decide_eq_true_2 by done.
  destruct (node_at w p) as [[|x]|]; [done..|]. by rewrite Hr'.
Qed.

Lemma open_write_ok (p : path) (c : text) (w : fs) :
  node_at w (parent p) = Some Dir → writable w p = true →
  open_write p c w = (put_file p c (opened p w), None).
Proof.
  unfold open_write, writable, write_data, opened, dir_open. intros ->.
  rewrite andb_true_iff. intros [Hw Hf%bool_decide_eq_true_1].
  destruct (node_at w p) as [[|x]|]; [done| |].
  - apply negb_true_iff in Hw. rewrite Hw. cbn [failing put_file].
    by rewrite Hf.
  - rewrite andb_true_r in Hw. apply andb_true_iff in Hw as [H1 H2].
    apply negb_true_iff in H1, H2. rewrite H1, H2. cbn [orb failing add_file].
    by rewrite Hf.
Qed.

(** A call that is refused changes nothing; only a failing write, after
    [open] has succeeded, does. *)
Lemma open_write_fail (p : path) (c : text) (w w' : fs) (e : exn) :
  open_write p c w = (w', Some e) → e ≠ OSError → w' = w.
Proof.
  intros H He.
  destruct (open_write_cases _ _ _ _ _ H)
    as [(-> & _)|(_ & _ & _ & _ & _ & Hcase)]; [done|].
  destruct Hcase as [(_ & ? & _)|(part & _ & [= ->] & _)]; done.
Qed.

Lemma open_write_extends (p : path) (c : text) (w w' : fs) (e : option exn) :
  open_write p c w = (w', e) → extends w w'.
Proof.
  intros H.
  destruct (open_write_cases _ _ _ _ _ H)
    as [(-> & _)|(_ & Hp & Hroot & Hr & _ & Hcase)]; [apply extends_refl|].
  destruct Hcase as [(_ & _ & ->)|(part & _ & _ & ->)];
    by apply extends_written.
Qed.

(** With the usual umask, repeating a write on the tree it left gives
    the same outcome and changes nothing. *)
Lemma open_write_stable (p : path) (c : text) (w w' : fs) (e : option exn) :
  umask_read_only w = false →
  open_write p c w = (w', e) → open_write p c w' = (w', e).
Proof.
  intros Hu H.
  destruct (open_write_cases _ _ _ _ _ H)
    as [(-> & _)|(Hpar & Hp & Hroot & Hr & _ & Hcase)]; [done|].
  assert (Hagain : ∀ x, w' = put_file p x (opened p w) →
            node_at w' (parent p) = Some Dir
            ∧ node_at w' p = Some (File x) ∧ refused w' p = false
            ∧ failing w' = failing w
            ∧ ∀ y, put_file p y (put_file p (Lit EmptyString) w')
                   = put_file p y (opened p w)).
  { intros x ->. rewrite !node_at_written by done.
    rewrite decide_False by (intros Heq; by apply (parent_neq p)).
    rewrite decide_True by done. split; [done|]. split; [done|].
    split; [unfold refused; by rewrite denied_written|].
    split; [unfold opened; by destruct (node_at w p)|].
    intros y. apply fs_eq; cbn [tree denied umask_read_only failing put_file];
      [|done..].
    by rewrite !insert_insert_eq. }
  unfold open_write, write_data.
  destruct Hcase as [(Hf & -> & Hw)|(part & Hf & -> & Hw)];
    destruct (Hagain _ Hw) as (-> & -> & -> & Hfail & Heq);
    cbn [failing put_file]; rewrite Hfail, Hf, Heq; by rewrite Hw.
Qed.

(** *** One effect *)

Lemma step_stable (o : op) (w w' : fs) (e : option exn) :
  umask_read_only w = false → step o w = (w', e) → step o w' = (w', e).
Proof.
  destruct o as [l|m a|p|p c]; simpl; intros Hu H.
  - by injection H as <- <-.
  - by injection H as <- <-.
  - by eapply mkdir_chain_stable.
  - by eapply open_write_stable.
Qed.

Lemma step_extends (o : op) (w w' : fs) (e : option exn) :
  step o w = (w', e) → extends w w'.
Proof.
  destruct o as [l|m a|p|p c]; simpl; intros H.
  - injection H as <- <-. apply extends_refl.
  - injection H as <- <-. apply extends_refl.
  - apply grows_extends. by eapply mkdir_chain_grows.
  - by eapply open_write_extends.
Qed.

(** What is there stays, unless the effect is a write to that very path. *)
Lemma step_frame (o : op) (w w' : fs) (e : option exn) (q : path) (n : node) :
  step o w = (w', e) → write_target o ≠ Some q →
  tree w !! q = Some n → tree w' !! q = Some n.
Proof.
  destruct o as [l|m a|p|p c]; simpl; intros H Hq Hn.
  - by injection H as <- <-.
  - by injection H as <- <-.
  - apply mkdir_chain_grows in H as [_ H].
    destruct (H q) as [->|[Hnone _]]; [done|].
    apply node_at_None in Hnone as [_ Hnone]. congruence.
  - destruct (open_write_cases _ _ _ _ _ H)
      as [(-> & _)|(_ & _ & _ & _ & _ & Hcase)]; [done|].
    destruct Hcase as [(_ & _ & ->)|(part & _ & _ & ->)];
      rewrite tree_written, lookup_insert_ne; congruence.
Qed.

(** A failing effect spoils a file only where no data can be stored. *)
Lemma step_frame_failed (o : op) (w w' : fs) (e : exn) (q : path) (n : node) :
  step o w = (w', Some e) → failing w !! q = None →
  tree w !! q = Some n → tree w' !! q = Some n.
Proof.
  intros H Hf Hn. destruct (decide (write_target o = Some q)) as [Ho|Ho];
    [|by eapply step_frame].
  destruct o as [l|m a|p|p c]; try done. injection Ho as ->. simpl in H.
  destruct (open_write_cases _ _ _ _ _ H)
    as [(-> & _)|(_ & _ & _ & _ & _ & Hcase)]; [done|].
  destruct Hcase as [(_ & ? & _)|(part & ? & _)]; congruence.
Qed.

(** An effect changes the tree only at a missing component of the
    directory it makes, or at the file it writes; when the write fails,
    the file is left with the part the failure leaves. *)
Lemma step_changes (o : op) (w w' : fs) (e : option exn) (q : path) :
  step o w = (w', e) → tree w' !! q ≠ tree w !! q →
  (∃ p, o = Mkdir p ∧ q `prefix_of` p ∧ node_at w q = None
        ∧ tree w' !! q = Some Dir)
  ∨ (∃ c, o = OpenWrite q c
          ∧ (e = None
             ∨ (e = Some OSError
                ∧ ∃ part, failing w !! q = Some part
                          ∧ tree w' !! q = Some (File part)))).
Proof.
  destruct o as [l|m a|p|p c]; simpl; intros H Hq.
  - by injection H as <- <-.
  - by injection H as <- <-.
  - left. exists p. split; [done|].
    destruct (mkdir_chain_changes _ _ _ _ _ _ H Hq) as (k & _ & Hk & ->).
    split; [done|]. apply mkdir_chain_grows in H as [_ H].
    by destruct (H k) as [?|[? ?]].
  - right.
    destruct (open_write_cases _ _ _ _ _ H)
      as [(-> & _)|(_ & _ & _ & _ & _ & Hcase)]; [done|].
    destruct Hcase as [(_ & -> & ->)|(part & Hf & -> & ->)];
      rewrite tree_written, lookup_insert in Hq |- *;
      destruct (decide (p = q)) as [->|]; [|done| |done]; exists c.
    + split; [done|]. by left.
    + split; [done|]. right. split; [done|]. by exists part.
Qed.

Lemma mkdir_chain_error (rest : list string) :
  ∀ (pre : path) (w w' : fs) (e : exn),
    mkdir_chain pre rest w = (w', Some e) → is_OSError e = true.
Proof.
  induction rest as [|c rest IH]; intros pre w w' e H; simpl in H; [done|].
  destruct (node_at w (pre ++ [c])) as [[|x]|]; [by eapply IH| |].
  - injection H as _ <-. by destruct rest.
  - destruct (refused w (pre ++ [c]) || refused w pre); [|by eapply IH].
    by injection H as _ <-.
Qed.

Lemma is_OSError_Exception (e : exn) :
  is_OSError e = true → is_Exception e = true.
Proof. by destruct e. Qed.

(** The file system raises [OSError]s only. *)
Lemma step_OSError (o : op) (w w' : fs) (e : exn) :
  step o w = (w', Some e) → is_OSError e = true.
Proof.
  destruct o as [l|m a|p|p c]; simpl; intros H; [done|done| |].
  - by eapply mkdir_chain_error.
  - destruct (open_write_cases _ _ _ _ _ H)
      as [(_ & x & [= ->] & _ & ?)|(_ & _ & _ & _ & _ & Hcase)]; [done|].
    by destruct Hcase as [(_ & ? & _)|(part & _ & [= ->] & _)].
Qed.

(** They are exceptions that [except Exception] catches. *)
Lemma step_error (o : op) (w w' : fs) (e : exn) :
  step o w = (w', Some e) → is_Exception e = true.
Proof. intros H. by eapply is_OSError_Exception, step_OSError. Qed.

(** *** A whole script *)

Lemma exec_cons (o : op) (ops : list op) (w : fs) :
  exec (o :: ops) w =
  match step o w with
  | (w', Some e) => {| final := w'; performed := []; raised := Some e |}
  | (w', None) =>
      {| final := final (exec ops w'); performed := o :: performed (exec ops w');
         raised := raised (exec ops w') |}
  end.
Proof. done. Qed.

(** The effects performed are an initial segment of those requested. *)
Lemma exec_prefix (ops : list op) :
  ∀ w, performed (exec ops w) `prefix_of` ops.
Proof.
  induction ops as [|o ops IH]; intros w; [done|]. rewrite exec_cons.
  destruct (step o w) as [w' [e|]]; simpl; [apply prefix_nil|].
  apply prefix_cons, IH.
Qed.

Lemma exec_complete (ops : list op) :
  ∀ w, raised (exec ops w) = None → performed (exec ops w) = ops.
Proof.
  induction ops as [|o ops IH]; intros w; [done|]. rewrite exec_cons.
  destruct (step o w) as [w' [e|]]; simpl; [done|]. intros H. by rewrite IH.
Qed.

Lemma exec_OSError (ops : list op) :
  ∀ w e, raised (exec ops w) = Some e → is_OSError e = true.
Proof.
  induction ops as [|o ops IH]; intros w e; [done|]. rewrite exec_cons.
  destruct (step o w) as [w' [e'|]] eqn:Hs; simpl; [|apply IH].
  intros [= <-]. by eapply step_OSError.
Qed.

Lemma exec_error (ops : list op) :
  ∀ w e, raised (exec ops w) = Some e → is_Exception e = true.
Proof. intros w e H. by eapply is_OSError_Exception, exec_OSError. Qed.

Lemma exec_app (a b : list op) :
  ∀ w, exec (a ++ b) w =
       match raised (exec a w) with
       | Some _ => exec a w
       | None =>
           {| final := final (exec b (final (exec a w)));
              performed := performed (exec a w)
                           ++ performed (exec b (final (exec a w)));
              raised := raised (exec b (final (exec a w))) |}
       end.
Proof.
  induction a as [|o a IH]; intros w.
  - simpl. by destruct (exec b w).
  - rewrite <- app_comm_cons, !exec_cons.
    destruct (step o w) as [w' [e|]]; simpl; [done|]. rewrite IH.
    by destruct (raised (exec a w')) eqn:Hr; simpl; rewrite ?Hr.
Qed.

Lemma exec_extends (ops : list op) :
  ∀ w, extends w (final (exec ops w)).
Proof.
  induction ops as [|o ops IH]; intros w; [apply extends_refl|].
  rewrite exec_cons. destruct (step o w) as [w' [e|]] eqn:Hs; simpl.
  - by eapply step_extends.
  - eapply extends_trans; [by eapply step_extends|apply IH].
Qed.

(** Frame: a node that no write of the script targets is left as it
    was. *)
Lemma exec_frame_script (ops : list op) :
  ∀ w q n, q ∉ write_targets ops →
           tree w !! q = Some n → tree (final (exec ops w)) !! q = Some n.
Proof.
  induction ops as [|o ops IH]; intros w q n; [done|]. rewrite exec_cons.
  intros Hq Hn.
  assert (Ho : write_target o ≠ Some q).
  { intros Ho. apply Hq. unfold write_targets. simpl. rewrite Ho. by left. }
  assert (Hops : q ∉ write_targets ops).
  { intros Hin. apply Hq. unfold write_targets in *. simpl.
    destruct (write_target o); [by right|done]. }
  destruct (step o w) as [w' [e|]] eqn:Hs; simpl.
  - by eapply step_frame.
  - apply IH; [done|]. by eapply step_frame.
Qed.

(** Frame: where data can be stored, a node that no performed write
    targets is left as it was. *)
Lemma exec_frame (ops : list op) :
  ∀ w q n, q ∉ write_targets (performed (exec ops w)) →
           failing w !! q = None →
           tree w !! q = Some n → tree (final (exec ops w)) !! q = Some n.
Proof.
  induction ops as [|o ops IH]; intros w q n; [done|]. rewrite exec_cons.
  destruct (step o w) as [w' [e|]] eqn:Hs; simpl; intros Hq Hf Hn.
  - by eapply step_frame_failed.
  - apply IH.
    + intros Hin. apply Hq. unfold write_targets in *. simpl.
      destruct (write_target o); [by right|done].
    + by destruct (step_extends _ _ _ _ Hs) as (_ & -> & _).
    + eapply step_frame; [done| |done]. intros Ho. apply Hq.
      unfold write_targets. simpl. rewrite Ho. by left.
Qed.

(** Every change of the tree: a missing component of a directory the
    script makes became a directory, or a performed write targets the
    path, or the write that failed does and left a part of its content
    there. *)
Lemma exec_changes (ops : list op) :
  ∀ w q, tree (final (exec ops w)) !! q ≠ tree w !! q →
         (∃ p, Mkdir p ∈ ops ∧ q `prefix_of` p ∧ node_at w q = None
               ∧ tree (final (exec ops w)) !! q = Some Dir)
         ∨ q ∈ write_targets (performed (exec ops w))
         ∨ (raised (exec ops w) = Some OSError ∧ q ∈ write_targets ops
            ∧ ∃ part, failing w !! q = Some part
                      ∧ tree (final (exec ops w)) !! q = Some (File part)).
Proof.
  induction ops as [|o ops IH]; intros w q; [done|]. rewrite exec_cons.
  destruct (step o w) as [w' [e|]] eqn:Hs; simpl; intros Hq.
  - destruct (step_changes _ _ _ _ _ Hs Hq)
      as [(p & -> & ? & ? & ?)|(c & -> & [?|([= ->] & part & ? & ?)])];
      [|done|].
    + left. exists p. split; [by left|done].
    + right. right. split; [done|]. split; [|by exists part].
      unfold write_targets. simpl. by left.
  - destruct (decide (tree (final (exec ops w')) !! q = tree w' !! q))
      as [Heq|Hne].
    + rewrite Heq in Hq |- *.
      destruct (step_changes _ _ _ _ _ Hs Hq) as [(p & -> & ? & ? & ?)|(c & -> & _)].
      * left. exists p. split; [by left|done].
      * right. left. unfold write_targets. simpl. by left.
    + pose proof (step_extends _ _ _ _ Hs) as Hext.
      destruct (IH _ _ Hne) as [(p & Hin & Hp & Hn & Hd)|[Hin|Hfail]].
      * left. exists p. split; [by right|]. split; [done|]. split; [|done].
        destruct (node_at w q) as [n|] eqn:Hw; [|done].
        exfalso. apply (extends_node w w' q Hext); [by rewrite Hw|done].
      * right. left. unfold write_targets in *. simpl.
        destruct (write_target o); [by right|done].
      * destruct Hfail as (Hr & Hin & part & Hf & Hpart).
        right. right. split; [done|]. split.
        -- unfold write_targets in *. simpl.
           destruct (write_target o); [by right|done].
        -- exists part. split; [|done].
           by destruct Hext as (_ & <- & _).
Qed.

(** *** Running a script again *)

Lemma alike_refl (T : list path) (W : fs) : alike T W W.
Proof. repeat (split; [done|]). intros q. by left. Qed.

Lemma alike_nil (W v : fs) : alike [] W v → v = W.
Proof.
  intros (Hd & Hu & Hf & H). apply fs_eq; [|done..].
  apply map_eq. intros q. destruct (H q) as [?|[Hin _]]; [done|].
  by apply elem_of_nil in Hin.
Qed.

Lemma alike_dir (T : list path) (W v : fs) (q : path) :
  alike T W v → node_at W q = Some Dir → node_at v q = Some Dir.
Proof.
  intros (_ & _ & _ & H). rewrite !node_at_rooted. destruct (rooted q); [done|].
  destruct (H q) as [->|(_ & c & c' & -> & _)]; done.
Qed.

Lemma alike_file (T : list path) (W v : fs) (q : path) (c : text) :
  alike T W v → node_at W q = Some (File c) →
  ∃ c', node_at v q = Some (File c').
Proof.
  intros (_ & _ & _ & H). rewrite !node_at_rooted. destruct (rooted q); [done|].
  destruct (H q) as [->|(_ & x & x' & _ & ->)]; eauto.
Qed.

(** With the usual umask, performing a script on the tree it left, or on
    one that differs from it only in the contents of files the script
    wrote, performs the same effects with the same outcome and leaves
    the same tree. *)
Lemma exec_replay (ops : list op) :
  ∀ s v, umask_read_only s = false →
         alike (write_targets (performed (exec ops s))) (final (exec ops s)) v →
         exec ops v = exec ops s.
Proof.
  induction ops as [|o ops IH]; intros s v Hu.
  - simpl. by intros ->%alike_nil.
  - rewrite !exec_cons. destruct (step o s) as [s1 [e|]] eqn:Hs; simpl.
    + intros ->%alike_nil. by rewrite (step_stable _ _ _ _ Hu Hs).
    + intros Hal.
      pose proof (exec_extends ops s1) as Hext.
      pose proof (step_extends _ _ _ _ Hs) as Hext1.
      assert (Hu1 : umask_read_only s1 = false)
        by (destruct Hext1 as (-> & _); done).
      assert (Hv : ∃ v1, step o v = (v1, None)
                ∧ alike (write_targets (performed (exec ops s1)))
                        (final (exec ops s1)) v1).
      { destruct o as [l|m a|p|p c].
        - by exists v.
        - by exists v.
        - exists v. split; [|done]. simpl in *. apply mkdir_chain_noop.
          intros k Hk Hp. eapply alike_dir; [done|]. apply Hext.
          by apply (mkdir_chain_ok _ _ _ _ Hs).
        - simpl in Hs. apply open_write_inv in Hs as (-> & Hp & Hw).
          pose proof (writable_not_rooted _ _ Hw) as Hr.
          set (s1 := put_file p c (opened p s)) in *.
          assert (Hs1 : node_at s1 p = Some (File c)).
          { unfold s1. rewrite node_at_written by done. by rewrite decide_True. }
          assert (Hf : ∃ c', node_at (final (exec ops s1)) p = Some (File c')).
          { destruct Hext as (_ & _ & Hext). by apply (Hext p) with c. }
          destruct Hf as [c' Hf].
          destruct (alike_file _ _ _ _ _ Hal Hf) as [c2 Hv].
          pose proof Hal as (Hd & Hum & Hfl & Htree).
          assert (Hden : denied v = denied s).
          { rewrite Hd, (extends_denied s1) by done.
            by apply denied_written. }
          assert (Hfail : failing v = failing s).
          { rewrite Hfl. destruct Hext as (_ & -> & _). unfold s1, opened.
            by destruct (node_at s p). }
          assert (Hwv : writable v p = true).
          { assert (Href : refused v p = refused s p)
              by (unfold refused; by rewrite Hden).
            unfold writable in *. rewrite Hv, Hfail, Href.
            apply andb_true_iff in Hw as [Hw ->].
            rewrite andb_true_r.
            destruct (node_at s p) as [[|?]|]; [done|done|].
            by apply andb_true_iff in Hw as [-> _]. }
          assert (Hpv : node_at v (parent p) = Some Dir).
          { eapply alike_dir; [done|]. apply Hext. unfold s1.
            rewrite node_at_written by done. rewrite decide_False; [done|].
            intros Heq. by apply (parent_neq p). }
          exists (put_file p c (opened p v)). split.
          + simpl. by apply open_write_ok.
          + assert (Hov : opened p v = put_file p (Lit EmptyString) v)
              by (unfold opened; by rewrite Hv).
            split; [by rewrite Hov|]. split; [by rewrite Hov|].
            split; [by rewrite Hov|]. intros q.
            rewrite tree_written, lookup_insert.
            destruct (decide (p = q)) as [Hpq|Hpq].
            * subst q. apply node_at_File in Hf as [_ Hf].
              destruct (decide (p ∈ write_targets
                                      (performed (exec ops s1))))
                as [Hin|Hnin].
              -- right. split; [done|]. by exists c', c.
              -- left. symmetry. apply exec_frame; [done| |].
                 ++ apply andb_true_iff in Hw as [_ Hw].
                    apply bool_decide_eq_true_1 in Hw. unfold s1, opened.
                    by destruct (node_at s p).
                 ++ by apply node_at_File in Hs1 as [_ ?].
            * destruct (Htree q) as [?|[Hin ?]]; [by left|]. right.
              split; [|done]. unfold write_targets in Hin. simpl in Hin.
              apply elem_of_cons in Hin as [?|?]; [congruence|done]. }
      destruct Hv as (v1 & -> & Hal1). by rewrite (IH _ _ Hu1 Hal1).
Qed.

(** With the usual umask, performing a script twice gives the tree of
    performing it once. *)
Lemma exec_twice (ops : list op) (w : fs) :
  umask_read_only w = false →
  exec ops (final (exec ops w)) = exec ops w.
Proof. intros Hu. by apply exec_replay, alike_refl. Qed.

(** A directory the script made is a directory in the tree it leaves. *)
Lemma exec_mkdir_performed (ops : list op) :
  ∀ w p, Mkdir p ∈ performed (exec ops w) →
         ∀ k, k ≠ [] → k `prefix_of` p →
              node_at (final (exec ops w)) k = Some Dir.
Proof.
  induction ops as [|o ops IH]; intros w p; [by intros ?%elem_of_nil|].
  rewrite exec_cons. destruct (step o w) as [w' [e|]] eqn:Hs; simpl.
  - by intros ?%elem_of_nil.
  - intros [<-|Hin]%elem_of_cons k Hk Hp; [|by eapply IH].
    apply (exec_extends ops w'). by apply (mkdir_chain_ok _ _ _ _ Hs).
Qed.

(** ** [perform], [run] and [main] *)

Lemma perform_final {A : Type} (m : M A) (w : fs) :
  final (perform m w) = final (exec (effects m) w).
Proof. unfold perform. by destruct (raised _), (outcome m). Qed.

Lemma perform_performed {A : Type} (m : M A) (w : fs) :
  performed (perform m w) = performed (exec (effects m) w).
Proof. unfold perform. by destruct (raised _), (outcome m). Qed.

Lemma perform_twice {A : Type} (m : M A) (w : fs) :
  umask_read_only w = false →
  perform m (final (perform m w)) = perform m w.
Proof.
  intros Hu. rewrite perform_final. unfold perform. by rewrite exec_twice.
Qed.

Lemma run_final (self : StructureGenerator) (w : fs) :
  final (run self w) = final (exec (effects (create_structure self)) w).
Proof.
  unfold run. rewrite <- perform_final.
  destruct (raised _) as [e|]; [|done]. by destruct (is_Exception e).
Qed.

(** [run] performs what the script performs, then at most prints. *)
Lemma run_performed (self : StructureGenerator) (w : fs) :
  ∃ tail, performed (run self w)
          = performed (exec (effects (create_structure self)) w) ++ tail
          ∧ Forall (λ o, target o = None) tail.
Proof.
  unfold run. rewrite <- perform_performed.
  destruct (raised _) as [e|]; [destruct (is_Exception e)|].
  - eexists. split; [done|]. by repeat constructor.
  - exists []. by rewrite app_nil_r.
  - exists []. by rewrite app_nil_r.
Qed.

Lemma run_twice (self : StructureGenerator) (w : fs) :
  umask_read_only w = false →
  run self (final (run self w)) = run self w.
Proof.
  intros Hu. rewrite run_final. unfold run. rewrite <- perform_final.
  by rewrite perform_twice.
Qed.

Lemma main_run (argv : list string) (w : fs) :
  main argv w = run (generator argv) w.
Proof. done. Qed.

Lemma run_touching (self : StructureGenerator) (w : fs) (o : op) (p : path) :
  o ∈ performed (run self w) → target o = Some p →
  o ∈ performed (exec (effects (create_structure self)) w).
Proof.
  destruct (run_performed self w) as (tail & -> & Htail).
  intros [?|Hin]%elem_of_app Ho; [done|].
  rewrite Forall_forall in Htail. apply Htail in Hin. congruence.
Qed.

(** ** Running the generator twice *)

(** C5. Provided the process may write to what it creates (its umask
    does not clear its own write permission), running the generator a
    second time with the same arguments on the tree the first run left
    performs exactly the same effects (so every file is written again
    with the same content), ends the same way and leaves the tree
    unchanged: the same directories and files, nothing added, nothing
    left over.  Making again any directory the first run made does not
    raise and changes nothing. *)
Theorem second_run_changes_nothing (argv : list string) (w : fs) :
  umask_read_only w = false →
  let first := main argv w in
  let second := main argv (final first) in
  final second = final first
  ∧ performed second = performed first
  ∧ raised second = raised first
  ∧ ∀ p, Mkdir p ∈ performed first →
         mkdir_parents p (final first) = (final first, None).
Proof.
  intros Hu. cbn zeta. rewrite !main_run, run_twice by done. repeat split.
  intros p Hin. apply mkdir_chain_noop. intros k Hk Hp. rewrite run_final.
  eapply exec_mkdir_performed; [|done..].
  by eapply (run_touching _ _ (Mkdir p) p).
Qed.

Lemma second_run_changes_nothing_witness :
  umask_read_only empty_fs = false
  ∧ Mkdir ["prism-carbon-registry"]
      ∈ performed (main ["generate_structure.py"] empty_fs)
  ∧ performed (main ["generate_structure.py"]
                 (final (main ["generate_structure.py"] empty_fs)))
    = performed (main ["generate_structure.py"] empty_fs)
  ∧ mkdir_parents ["prism-carbon-registry"]
      (final (main ["generate_structure.py"] empty_fs))
    = (final (main ["generate_structure.py"] empty_fs), None).
Proof.
  pose proof (second_run_changes_nothing ["generate_structure.py"] empty_fs
                eq_refl) as (_ & Hp & _ & H).
  assert (Hm : Mkdir ["prism-carbon-registry"]
               ∈ performed (main ["generate_structure.py"] empty_fs))
    by (apply (bool_decide_unpack _); vm_compute; exact I).
  split; [reflexivity|]. split; [exact Hm|]. split; [exact Hp|].
  exact (H _ Hm).
Defined.

(** The hypothesis of C5 is needed.  With the planned directories in
    place and a umask that clears the write permission of the process,
    the first run creates [README.md] read-only and goes on to the
    missing [_get_event_bus]; the second run is refused when it opens
    [README.md] and stops there. *)
Lemma second_run_is_refused_under_a_read_only_umask :
  let argv := ["generate_structure.py"] in
  let first := main argv directories_in_place in
  let second := main argv (final first) in
  umask_read_only directories_in_place = true
  ∧ last (performed first)
    = Some (Print (ErrorCreating (AttributeError "_get_event_bus")))
  ∧ tree (final first) !! ["prism-carbon-registry"; "README.md"]
    = Some (File (Static "_get_main_readme"))
  ∧ last (performed second)
    = Some (Print (ErrorCreating
                     (PermissionError ["prism-carbon-registry"; "README.md"])))
  ∧ tree (final second) = tree (final first)
  ∧ performed second ≠ performed first.
Proof.
  cbn zeta. split; [reflexivity|].
  split; [vm_compute; reflexivity|]. split; [vm_compute; reflexivity|].
  split; [vm_compute; reflexivity|].
  split; [apply (bool_decide_unpack _); vm_compute; exact I|].
  apply (proj1 (bool_decide_eq_false _)). vm_compute. reflexivity.
Qed.

(** From an empty directory the same umask stops both runs at the same
    place: the project root is made read-only, so that nothing can be
    made in it. *)
Lemma read_only_umask_stops_both_runs_at_the_first_subdirectory :
  let argv := ["generate_structure.py"] in
  let first := main argv empty_read_only_umask in
  let second := main argv (final first) in
  performed first
  = [ Print (Creating "prism-carbon-registry");
      Mkdir ["prism-carbon-registry"];
      Print (ErrorCreating
               (PermissionError ["prism-carbon-registry"; "packages"])) ]
  ∧ tree (final first) = {[ ["prism-carbon-registry"] := Dir ]}
  ∧ performed second = performed first
  ∧ tree (final second) = tree (final first).
Proof.
  cbn zeta. split; [vm_compute; reflexivity|].
  split; [apply (bool_decide_unpack _); vm_compute; exact I|].
  split; [vm_compute; reflexivity|].
  apply (bool_decide_unpack _). vm_compute. exact I.
Qed.

(** ** The script of [create_structure] *)

(** The class has no [_get_event_bus]; the builders ask for it, and for
    fifty more methods that are not there. *)
Lemma missing_methods :
  ("_get_event_bus" ∉ class_methods)
  ∧ ("_get_test_conftest" ∉ class_methods)
  ∧ ("_get_project_service_files" ∉ class_methods)
  ∧ ("_get_api_gateway_files" ∉ class_methods)
  ∧ ("_get_pr_template" ∉ class_methods).
Proof.
  repeat split; apply (proj1 (bool_decide_eq_false _)); reflexivity.
Qed.


Lemma parent_snoc (b : path) (f : string) :
  is_anchor f = false → parent (b ++ [f]) = b.
Proof.
  intros Hf. destruct b as [|x b]; simpl; [by rewrite Hf|].
  destruct (b ++ [f]) as [|y l] eqn:Hb; [by destruct b|].
  rewrite <- Hb. change (x :: removelast (b ++ [f]) = x :: b).
  f_equal. apply removelast_last.
Qed.

Lemma joinpath_relative (b : path) (s : string) :
  is_absolute s = false → joinpath b s = b ++ Path s.
Proof. unfold joinpath. by intros ->. Qed.

Lemma directories_relative (d : string) :
  d ∈ directories → is_absolute d = false.
Proof.
  assert (H : forallb (λ d, negb (is_absolute d)) directories = true)
    by (vm_compute; reflexivity).
  rewrite forallb_forall in H. intros Hd%list_elem_of_In.
  apply H in Hd. by destruct (is_absolute d).
Qed.

Lemma create_structure_script_raw (self : StructureGenerator) :
  create_structure self =
  Script (Print (Creating (project_name self))
          :: directory_phase self ++ root_calls
          ++ flat_map (λ '(f, c),
                 [Mkdir (parent (base_path self ++ [f]));
                  OpenWrite (base_path self ++ [f]) c]) root_files
          ++ shared_calls)
         (inl (AttributeError "_get_event_bus")).
Proof. vm_compute. reflexivity. Qed.

(** As the class is written, every run ends in [_create_shared_packages]:
    [self._get_event_bus] is not a method of the class. *)
Lemma create_structure_script (self : StructureGenerator) :
  create_structure self =
  Script (Print (Creating (project_name self))
          :: directory_phase self ++ root_calls ++ root_writes self
          ++ shared_calls)
         (inl (AttributeError "_get_event_bus")).
Proof.
  rewrite create_structure_script_raw. unfold root_writes, root_files.
  cbn [flat_map]. by rewrite !parent_snoc by reflexivity.
Qed.

Lemma directory_phase_no_write (self : StructureGenerator) (o : op) :
  o ∈ Print (Creating (project_name self)) :: directory_phase self →
  is_write o = false ∧ is_call o = false.
Proof.
  intros [->|Hin]%elem_of_cons; [done|]. unfold directory_phase in Hin.
  apply elem_of_app in Hin as [Hin|Hin].
  - apply list_elem_of_fmap in Hin as (d & -> & _). done.
  - apply list_elem_of_singleton in Hin as ->. done.
Qed.

Lemma run_script (self : StructureGenerator) (w : fs) :
  ∃ e, run self w =
       {| final := final (exec (effects (create_structure self)) w);
          performed := performed (exec (effects (create_structure self)) w)
                       ++ [Print (ErrorCreating e)];
          raised := Some (SystemExit 1) |}.
Proof.
  pose proof (exec_error (effects (create_structure self)) w) as Herr.
  unfold run, perform. rewrite create_structure_script in *.
  cbn [effects outcome] in *.
  destruct (exec _ w) as [f p [e|]]; cbn [raised final performed] in *.
  - exists e. by rewrite (Herr e eq_refl).
  - by eexists.
Qed.

(** ** Order of the effects *)

Lemma performed_lookup_write (self : StructureGenerator) (w : fs)
    (i : nat) (p : path) (c : text) :
  performed (run self w) !! i = Some (OpenWrite p c) →
  performed (exec (effects (create_structure self)) w) !! i
  = Some (OpenWrite p c).
Proof.
  destruct (run_script self w) as [e ->]. cbn [performed].
  intros H. apply lookup_app_Some in H as [H|[_ H]]; [done|].
  apply list_lookup_singleton_Some in H as [_ H]. done.
Qed.

(** In an initial segment of [A ++ B], what is not in [A] comes after
    all of [A]. *)
Lemma prefix_after {X : Type} (A B P : list X) (i : nat) (x a : X) :
  P `prefix_of` A ++ B → P !! i = Some x → x ∉ A → a ∈ A →
  ∃ j, j < i ∧ P !! j = Some a.
Proof.
  intros [k Hk] Hi Hx Ha.
  assert (Hs : (A ++ B) !! i = Some x).
  { rewrite Hk. by apply lookup_app_l_Some. }
  assert (HA : (length A ≤ i)%nat).
  { destruct (decide (i < length A)) as [Hlt|]; [|lia].
    rewrite lookup_app_l in Hs by done.
    by apply list_elem_of_lookup_2 in Hs. }
  apply list_elem_of_lookup in Ha as [j Hj]. exists j.
  pose proof (lookup_lt_Some _ _ _ Hj) as Hlt.
  pose proof (lookup_lt_Some _ _ _ Hi) as HiP.
  split; [lia|].
  assert (Hj' : (P ++ k) !! j = Some a).
  { rewrite <- Hk. by rewrite lookup_app_l. }
  by rewrite lookup_app_l in Hj' by lia.
Qed.

(** C7. In every run, a file write at position [i] of the effects
    performed comes after the creation of every planned directory: for
    each entry [d] of the directory list, [mkdir] of [base_path / d] was
    performed at an earlier position. *)
Theorem directories_made_before_first_write
    (argv : list string) (w : fs) (i : nat) (p : path) (c : text) :
  performed (main argv w) !! i = Some (OpenWrite p c) →
  ∀ d, d ∈ directories →
       ∃ j, j < i
            ∧ performed (main argv w) !! j
              = Some (Mkdir (joinpath (base_path (generator argv)) d)).
Proof.
  rewrite main_run. generalize (generator argv). intros self Hi d Hd.
  apply performed_lookup_write in Hi.
  destruct (run_script self w) as [e ->]. cbn [performed].
  pose proof (exec_prefix (effects (create_structure self)) w) as Hpre.
  revert Hi Hpre. generalize (performed (exec (effects (create_structure self)) w)).
  intros P Hi Hpre.
  rewrite create_structure_script in Hpre. cbn [effects] in Hpre.
  destruct (prefix_after
              (Print (Creating (project_name self)) :: directory_phase self)
              (root_calls ++ root_writes self ++ shared_calls) P i
              (OpenWrite p c) (Mkdir (joinpath (base_path self) d)))
    as (j & Hj & HP).
  - exact Hpre.
  - done.
  - by intros [? ?]%directory_phase_no_write.
  - right. unfold directory_phase. apply elem_of_app. left.
    by apply (list_elem_of_fmap_2 (λ d, Mkdir (joinpath (base_path self) d))).
  - exists j. split; [done|]. by apply lookup_app_l_Some.
Qed.

Lemma directories_made_before_first_write_witness :
  performed (main ["generate_structure.py"] empty_fs) !! 168
  = Some (OpenWrite ["prism-carbon-registry"; "README.md"]
            (Static "_get_main_readme"))
  ∧ "tests/e2e" ∈ directories
  ∧ ∃ j, j < 168
         ∧ performed (main ["generate_structure.py"] empty_fs) !! j
           = Some (Mkdir ["prism-carbon-registry"; "tests"; "e2e"]).
Proof.
  assert (H1 : performed (main ["generate_structure.py"] empty_fs) !! 168
               = Some (OpenWrite ["prism-carbon-registry"; "README.md"]
                         (Static "_get_main_readme")))
    by (vm_compute; reflexivity).
  assert (H2 : "tests/e2e" ∈ directories)
    by (apply (bool_decide_unpack _); vm_compute; exact I).
  split; [exact H1|]. split; [exact H2|].
  exact (directories_made_before_first_write
           ["generate_structure.py"] empty_fs 168 _ _ H1 "tests/e2e" H2).
Defined.

(** ** The planned directories *)

Lemma exec_mkdirs (ps : list path) :
  ∀ w, Forall (λ p, mkdir_clear w p = true) ps →
       raised (exec (map Mkdir ps) w) = None
       ∧ ∀ p, p ∈ ps → node_at (final (exec (map Mkdir ps) w)) p = Some Dir.
Proof.
  induction ps as [|x ps IH]; intros w HF.
  - split; [done|]. by intros p ?%elem_of_nil.
  - apply Forall_cons in HF as [Hx HF]. cbn [map]. rewrite exec_cons.
    destruct (chain_clear_mkdir _ _ _ Hx) as [w1 Hm].
    cbn [step]. unfold mkdir_parents. rewrite Hm. cbn [final raised].
    pose proof (mkdir_chain_grows _ _ _ _ _ Hm) as Hg.
    destruct (IH w1) as [Hr Hd].
    { eapply Forall_impl; [exact HF|]. intros p Hp.
      by eapply chain_clear_grows. }
    split; [done|]. intros p [->|Hp]%elem_of_cons; [|by apply Hd].
    apply (exec_extends (map Mkdir ps) w1).
    destruct x as [|a x]; [done|]. by apply (mkdir_chain_ok _ _ _ _ Hm).
Qed.

Lemma exec_mkdirs_then (ps : list path) (rest : list op) (w : fs) :
  Forall (λ p, mkdir_clear w p = true) ps →
  ∀ p, p ∈ ps → node_at (final (exec (map Mkdir ps ++ rest) w)) p = Some Dir.
Proof.
  intros HF p Hp. rewrite exec_app. destruct (exec_mkdirs ps w HF) as [-> Hd].
  cbn [final]. by apply exec_extends, Hd.
Qed.

Lemma effects_Script {A : Type} (l : list op) (o : exn + A) :
  effects (Script l o) = l.
Proof. done. Qed.

Lemma exec_final_print (l : line) (ops : list op) (w : fs) :
  final (exec (Print l :: ops) w) = final (exec ops w).
Proof. done. Qed.

Lemma directory_phase_final (self : StructureGenerator) (rest : list op)
    (w : fs) :
  forallb (λ d, mkdir_clear w (joinpath (base_path self) d)) directories
  = true →
  ∀ d, d ∈ directories →
       node_at (final (exec (directory_phase self ++ rest) w))
         (joinpath (base_path self) d) = Some Dir.
Proof.
  intros Hclear d Hd. unfold directory_phase.
  rewrite <- app_assoc, <- (map_map (joinpath (base_path self)) Mkdir).
  apply exec_mkdirs_then.
  - apply Forall_forall. intros p Hp%list_elem_of_In.
    apply in_map_iff in Hp as (x & <- & Hx).
    rewrite forallb_forall in Hclear. by apply Hclear.
  - by apply list_elem_of_In, in_map, list_elem_of_In.
Qed.

Lemma create_directories_effects (self : StructureGenerator) :
  effects (_create_directories self)
  = map (λ d, Mkdir (joinpath (base_path self) d)) directories
    ++ [Print (CreatedDirectories (length directories))].
Proof. vm_compute. reflexivity. Qed.

(** C6. The directory phase is the fixed list [directories], mapped to
    [mkdir] under the project root, whatever files are written later;
    and when nothing stands in the way of making them (no regular file
    and no refusal on their paths), every directory of the list exists
    after the run, whatever the run writes into it. *)
Theorem planned_directories_exist (argv : list string) (w : fs) :
  let self := generator argv in
  effects (_create_directories self)
  = map (λ d, Mkdir (joinpath (base_path self) d)) directories
    ++ [Print (CreatedDirectories (length directories))]
  ∧ (forallb (λ d, mkdir_clear w (joinpath (base_path self) d)) directories
     = true →
     ∀ d, d ∈ directories →
          node_at (final (main argv w)) (joinpath (base_path self) d)
          = Some Dir).
Proof.
  cbn zeta. rewrite main_run. generalize (generator argv). intros self.
  split; [apply create_directories_effects|]. intros Hclear d Hd.
  rewrite run_final, create_structure_script, effects_Script.
  rewrite exec_final_print. by apply directory_phase_final.
Qed.

Lemma planned_directories_exist_witness :
  forallb (λ d, mkdir_clear empty_fs
                  (joinpath (base_path (generator ["generate_structure.py"])) d))
    directories = true
  ∧ "tests/e2e" ∈ directories
  ∧ node_at (final (main ["generate_structure.py"] empty_fs))
      (joinpath (base_path (generator ["generate_structure.py"])) "tests/e2e")
    = Some Dir.
Proof.
  assert (H1 : forallb (λ d, mkdir_clear empty_fs
                  (joinpath (base_path (generator ["generate_structure.py"])) d))
                 directories = true) by (vm_compute; reflexivity).
  assert (H2 : "tests/e2e" ∈ directories)
    by (apply (bool_decide_unpack _); vm_compute; exact I).
  split; [exact H1|]. split; [exact H2|].
  exact (proj2 (planned_directories_exist ["generate_structure.py"] empty_fs)
           H1 "tests/e2e" H2).
Defined.

(** ** Plan and execution *)

(** C3 (as amended). [create_structure] does not build a plan first.  It
    makes the planned directories before any file content is produced;
    then the builders run one after the other, each producing the
    contents of its own files before it writes them: the contents of
    the root files are produced, the root files are written, and only
    then the contents of the shared-package files are produced. *)
Theorem content_is_produced_builder_by_builder (self : StructureGenerator) :
  effects (create_structure self)
  = Print (Creating (project_name self))
    :: directory_phase self ++ root_calls ++ root_writes self ++ shared_calls
  ∧ Forall (λ o, is_call o = false) (directory_phase self)
  ∧ (∀ d, d ∈ directories →
          Mkdir (joinpath (base_path self) d) ∈ directory_phase self)
  ∧ Forall (λ o, is_call o = true) root_calls
  ∧ Forall (λ o, touches_tree o = true) (root_writes self)
  ∧ Forall (λ o, is_call o = true) shared_calls
  ∧ ∀ w, ∃ n e,
      performed (run self w)
      = take n (effects (create_structure self)) ++ [Print (ErrorCreating e)].
Proof.
  split; [by rewrite create_structure_script|].
  split.
  { apply Forall_forall. intros o Ho.
    apply (directory_phase_no_write self). by right. }
  split.
  { intros d Hd. unfold directory_phase. apply elem_of_app. left.
    by apply list_elem_of_In, (in_map (λ d, Mkdir (joinpath (base_path self) d))),
      list_elem_of_In. }
  split; [by repeat constructor|].
  split; [by repeat constructor|].
  split; [by repeat constructor|].
  intros w. destruct (run_script self w) as [e ->]. cbn [performed].
  pose proof (exec_prefix (effects (create_structure self)) w) as [k Hk].
  revert Hk. generalize (performed (exec (effects (create_structure self)) w)).
  intros P Hk. exists (length P), e. f_equal.
  by rewrite Hk, take_app_length.
Qed.

Lemma content_is_produced_builder_by_builder_witness :
  "tests/e2e" ∈ directories
  ∧ Mkdir ["prism-carbon-registry"; "tests"; "e2e"]
    ∈ directory_phase (__init__ None).
Proof.
  assert (H : "tests/e2e" ∈ directories)
    by (apply (bool_decide_unpack _); vm_compute; exact I).
  split; [exact H|].
  exact (proj1 (proj2 (proj2
           (content_is_produced_builder_by_builder (__init__ None))))
           "tests/e2e" H).
Defined.

(** C3, the claim as stated, fails: in the run from an empty directory
    the first directory is made (position 1) before any content exists
    (the first template is called at position 161), and the content of
    [packages/common/database/base.py] is produced (position 181) after
    [README.md] has been written (position 168). *)
Lemma plan_is_not_complete_before_first_mutation :
  let trace := performed (main ["generate_structure.py"] empty_fs) in
  trace !! 1 = Some (Mkdir ["prism-carbon-registry"])
  ∧ trace !! 161 = Some (Call "_get_main_readme" [])
  ∧ trace !! 168 = Some (OpenWrite ["prism-carbon-registry"; "README.md"]
                           (Static "_get_main_readme"))
  ∧ trace !! 181 = Some (Call "_get_database_base" []).
Proof. vm_compute. by repeat split. Qed.

Lemma exec_all (ops : list op) (w : fs) :
  raised (exec ops w) = None →
  exec ops w = {| final := final (exec ops w); performed := ops;
                  raised := None |}.
Proof.
  intros H. pose proof (exec_complete ops w H) as Hp.
  destruct (exec ops w) as [f p r]. simpl in *. by subst.
Qed.

(** A refused write leaves the tree as it was. *)
Lemma write_refused (p q : path) (c : text) (w : fs) :
  snd (step (OpenWrite p c) w) = Some (PermissionError q) →
  step (OpenWrite p c) w = (w, Some (PermissionError q)).
Proof.
  cbn [step]. destruct (open_write p c w) as [w' r] eqn:H. cbn [snd].
  intros ->. by rewrite (open_write_fail _ _ _ _ _ H).
Qed.

(** ** A failing write *)

(** C1 (as amended). Nothing in the class catches the failure of a
    single write and there is no list of failures.  When an effect of
    the run fails (making a directory or writing a file), nothing that
    comes after it is performed; what was done before it stays; [run]
    catches the exception, prints one error line and exits with
    status 1. *)
Theorem first_failure_ends_the_run (self : StructureGenerator)
    (w w1 w2 : fs) (before after : list op) (o : op) (e : exn) :
  effects (create_structure self) = before ++ o :: after →
  exec before w = {| final := w1; performed := before; raised := None |} →
  step o w1 = (w2, Some e) →
  run self w = {| final := w2;
                  performed := before ++ [Print (ErrorCreating e)];
                  raised := Some (SystemExit 1) |}.
Proof.
  intros Hscript Hbefore Hstep. unfold run, perform. rewrite Hscript.
  rewrite exec_app, Hbefore. cbn [raised final performed].
  rewrite exec_cons, Hstep. cbn [raised final performed].
  rewrite (step_error _ _ _ _ Hstep). by rewrite app_nil_r.
Qed.

Lemma first_failure_ends_the_run_witness :
  let self := generator ["generate_structure.py"] in
  let script := effects (create_structure self) in
  let o := OpenWrite ["prism-carbon-registry"; ".gitignore"]
             (Static "_get_gitignore") in
  let w1 := final (exec (take 170 script) gitignore_denied) in
  let e := PermissionError ["prism-carbon-registry"; ".gitignore"] in
  script = take 170 script ++ o :: drop 171 script
  ∧ exec (take 170 script) gitignore_denied
    = {| final := w1; performed := take 170 script; raised := None |}
  ∧ step o w1 = (w1, Some e)
  ∧ run self gitignore_denied
    = {| final := w1;
         performed := take 170 script ++ [Print (ErrorCreating e)];
         raised := Some (SystemExit 1) |}.
Proof.
  cbn zeta.
  set (self := generator ["generate_structure.py"]).
  set (script := effects (create_structure self)).
  set (o := OpenWrite ["prism-carbon-registry"; ".gitignore"]
              (Static "_get_gitignore")).
  set (w1 := final (exec (take 170 script) gitignore_denied)).
  set (e := PermissionError ["prism-carbon-registry"; ".gitignore"]).
  assert (H1 : script = take 170 script ++ o :: drop 171 script)
    by (vm_compute; reflexivity).
  assert (H2 : exec (take 170 script) gitignore_denied
               = {| final := w1; performed := take 170 script;
                    raised := None |})
    by (apply exec_all; vm_compute; reflexivity).
  assert (H3 : step o w1 = (w1, Some e))
    by (apply write_refused; vm_compute; reflexivity).
  split; [exact H1|]. split; [exact H2|]. split; [exact H3|].
  exact (first_failure_ends_the_run self gitignore_denied w1 w1
           (take 170 script) (drop 171 script) o e H1 H2 H3).
Defined.

(** C1, the claim as stated, fails: when [.gitignore] cannot be
    written, the run stops there with exit status 1; [.env.example],
    the next file of the plan, is never written, and the closing
    summary is not printed. *)
Lemma write_failure_is_not_isolated :
  let r := main ["generate_structure.py"] gitignore_denied in
  raised r = Some (SystemExit 1)
  ∧ last (performed r)
    = Some (Print (ErrorCreating
                     (PermissionError ["prism-carbon-registry"; ".gitignore"])))
  ∧ tree (final r) !! ["prism-carbon-registry"; "README.md"]
    = Some (File (Static "_get_main_readme"))
  ∧ OpenWrite ["prism-carbon-registry"; ".env.example"]
      (Static "_get_env_example")
    ∈ effects (create_structure (generator ["generate_structure.py"]))
  ∧ tree (final r) !! ["prism-carbon-registry"; ".env.example"] = None
  ∧ Print StructureCreated ∉ performed r.
Proof.
  cbn zeta.
  split; [vm_compute; reflexivity|]. split; [vm_compute; reflexivity|].
  split; [vm_compute; reflexivity|]. split.
  { apply (bool_decide_unpack _). vm_compute. exact I. }
  split; [vm_compute; reflexivity|].
  apply (proj1 (bool_decide_eq_false _)). vm_compute. reflexivity.
Qed.

(** ** Writing one file *)

Lemma parent_shorter (p : path) :
  rooted p = false → length (parent p) < length p.
Proof.
  destruct p as [|a [|b p]]; [done| |].
  - simpl. intros ->. simpl. lia.
  - intros _. change (parent (a :: b :: p)) with (removelast (a :: b :: p)).
    rewrite removelast_shorter. simpl. lia.
Qed.

Lemma write_file_script (self : StructureGenerator)
    (directory filename : string) (content : text) :
  let file_path :=
    if negb (String.eqb directory EmptyString)
    then joinpath (joinpath (base_path self) directory) filename
    else joinpath (base_path self) filename in
  _write_file self directory filename content
  = Script [Mkdir (parent file_path); OpenWrite file_path content] (inr tt).
Proof. done. Qed.

(** C4. [_write_file] first makes the parent directory of the file with
    all its missing ancestors, listed among the planned directories or
    not, then writes the content as given; a file already at that path
    is replaced (no warning, merge or backup: nothing else is
    performed and every other node is left as it was).  It succeeds
    whenever no regular file or refusal stands on the parent chain, the
    path itself is not a directory or refused, and its data can be
    stored. *)
Theorem write_file_makes_parents_then_overwrites
    (self : StructureGenerator) (directory filename : string)
    (content : text) (w : fs) :
  let file_path :=
    if negb (String.eqb directory EmptyString)
    then joinpath (joinpath (base_path self) directory) filename
    else joinpath (base_path self) filename in
  mkdir_clear w (parent file_path) = true →
  writable w file_path = true →
  let r := perform (_write_file self directory filename content) w in
  raised r = None
  ∧ performed r = [Mkdir (parent file_path); OpenWrite file_path content]
  ∧ node_at (final r) file_path = Some (File content)
  ∧ (∀ k, k ≠ [] → k `prefix_of` parent file_path →
          node_at (final r) k = Some Dir)
  ∧ (∀ q n, q ≠ file_path → tree w !! q = Some n →
            tree (final r) !! q = Some n).
Proof.
  intros fp Hclear Hw. rewrite write_file_script. fold fp. revert Hclear Hw.
  generalize fp. clear fp. intros fp Hclear Hw. cbn zeta.
  destruct (chain_clear_mkdir _ _ _ Hclear) as [w1 Hm].
  pose proof (writable_not_rooted _ _ Hw) as Hr.
  pose proof (parent_shorter _ Hr) as Hlen.
  pose proof (mkdir_chain_grows _ _ _ _ _ Hm) as Hg.
  assert (Hdirs : ∀ k, k `prefix_of` parent fp → node_at w1 k = Some Dir).
  { intros [|a k] Hk; [done|]. by apply (mkdir_chain_ok _ _ _ _ Hm). }
  assert (Hsame : node_at w1 fp = node_at w fp).
  { rewrite !node_at_rooted, Hr.
    destruct (decide (tree w1 !! fp = tree w !! fp)) as [|Hne]; [done|].
    destruct (mkdir_chain_changes _ _ _ _ _ _ Hm Hne) as (k & _ & Hk & Heq).
    rewrite app_nil_l in Heq. subst k. apply prefix_length in Hk. lia. }
  assert (Hw1 : writable w1 fp = true).
  { eapply writable_extends; [by apply grows_extends|done|done]. }
  assert (Hstep : exec [Mkdir (parent fp); OpenWrite fp content] w
                  = {| final := put_file fp content (opened fp w1);
                       performed := [Mkdir (parent fp); OpenWrite fp content];
                       raised := None |}).
  { rewrite exec_cons. cbn [step]. unfold mkdir_parents. rewrite Hm.
    rewrite exec_cons. cbn [step].
    rewrite open_write_ok; [done| |done]. by apply Hdirs. }
  unfold perform. cbn [effects outcome]. rewrite Hstep.
  cbn [raised final performed].
  split; [done|]. split; [done|]. split.
  { rewrite node_at_written by done. by rewrite decide_True. }
  split.
  - intros k _ Hk. rewrite node_at_written by done.
    rewrite decide_False; [by apply Hdirs|].
    intros ->. apply prefix_length in Hk. lia.
  - intros q n Hq Hn. rewrite tree_written, lookup_insert_ne by done.
    destruct Hg as [_ Hg]. destruct (Hg q) as [->|[Hnone _]]; [done|].
    apply node_at_None in Hnone as [_ Hnone]. congruence.
Qed.

Lemma write_file_makes_parents_then_overwrites_witness :
  let self := __init__ None in
  let file_path := ["prism-carbon-registry"; "packages"; "common";
                    "__init__.py"] in
  let r := perform (_write_file self "packages/common" "__init__.py"
                      (Lit "new")) with_old_init in
  ("packages/common" ∉ directories)
  ∧ node_at with_old_init file_path = Some (File (Lit "old"))
  ∧ mkdir_clear with_old_init (parent file_path) = true
  ∧ writable with_old_init file_path = true
  ∧ raised r = None
  ∧ node_at (final r) file_path = Some (File (Lit "new")).
Proof.
  cbn zeta.
  assert (H1 : mkdir_clear with_old_init
                 (parent ["prism-carbon-registry"; "packages"; "common";
                          "__init__.py"]) = true) by (vm_compute; reflexivity).
  assert (H2 : writable with_old_init
                 ["prism-carbon-registry"; "packages"; "common";
                  "__init__.py"] = true) by (vm_compute; reflexivity).
  split; [apply (proj1 (bool_decide_eq_false _)); vm_compute; reflexivity|].
  split; [vm_compute; reflexivity|]. split; [exact H1|]. split; [exact H2|].
  pose proof (write_file_makes_parents_then_overwrites (__init__ None)
                "packages/common" "__init__.py" (Lit "new") with_old_init
                H1 H2) as (Hr & _ & Hf & _).
  split; [exact Hr|exact Hf].
Defined.

(** ** Where the generator writes *)

Lemma script_targets (self : StructureGenerator) (o : op) (p : path) :
  o ∈ effects (create_structure self) → target o = Some p →
  base_path self `prefix_of` p.
Proof.
  rewrite create_structure_script, effects_Script.
  intros [->|Hin]%elem_of_cons Ht; [done|].
  apply elem_of_app in Hin as [Hin|Hin].
  { unfold directory_phase in Hin. apply elem_of_app in Hin as [Hin|Hin].
    - apply list_elem_of_In, in_map_iff in Hin as (d & <- & Hd).
      injection Ht as <-. apply list_elem_of_In, directories_relative in Hd.
      rewrite joinpath_relative by done. by apply prefix_app_r.
    - by apply list_elem_of_singleton in Hin as ->. }
  apply elem_of_app in Hin as [Hin|Hin].
  { by apply list_elem_of_In, in_map_iff in Hin as (m & <- & _). }
  apply elem_of_app in Hin as [Hin|Hin].
  - apply list_elem_of_In, in_flat_map in Hin as ([f c] & _ & Ho).
    destruct Ho as [<-|[<-|[]]]; injection Ht as <-; [done|].
    by apply prefix_app_r.
  - by apply list_elem_of_In, in_map_iff in Hin as (m & <- & _).
Qed.

(** C10 (as amended). Every path the generator hands to [mkdir] or
    [open] lies under the project root.  The tree changes only under the
    root, except that missing ancestors of the root itself are created
    as directories ([mkdir] with [parents=True]).  The generator only
    makes directories and writes files: any node that exists before the
    run and is not one of the planned file paths is unchanged after
    it. *)
Theorem effects_stay_under_the_root (argv : list string) (w : fs) :
  let self := generator argv in
  let r := main argv w in
  (∀ o p, o ∈ performed r → target o = Some p → base_path self `prefix_of` p)
  ∧ (∀ q, tree (final r) !! q ≠ tree w !! q →
          base_path self `prefix_of` q
          ∨ (q `prefix_of` base_path self ∧ node_at w q = None
             ∧ tree (final r) !! q = Some Dir))
  ∧ (∀ q n, tree w !! q = Some n →
            q ∉ write_targets (effects (create_structure self)) →
            tree (final r) !! q = Some n).
Proof.
  cbn zeta. rewrite main_run. generalize (generator argv). intros self.
  split; [|split].
  - intros o p Ho Ht. apply (script_targets self o p); [|done].
    eapply elem_of_prefix; [by eapply run_touching|apply exec_prefix].
  - intros q. rewrite run_final. intros Hq.
    destruct (exec_changes _ _ _ Hq)
      as [(p & Hin & Hp & Hn & Hd)|[Hin|(_ & Hin & _)]].
    + pose proof (script_targets self (Mkdir p) p Hin eq_refl) as Hb.
      destruct (prefix_weak_total _ _ _ Hp Hb) as [?|?]; [right|left]; done.
    + left. apply list_elem_of_omap in Hin as (o & Ho & Ht).
      apply (script_targets self o q).
      * eapply elem_of_prefix; [exact Ho|apply exec_prefix].
      * by destruct o.
    + left. apply list_elem_of_omap in Hin as (o & Ho & Ht).
      apply (script_targets self o q); [done|by destruct o].
  - intros q n Hn Hq. rewrite run_final. by apply exec_frame_script.
Qed.

Lemma effects_stay_under_the_root_witness :
  let file_path := ["prism-carbon-registry"; "packages"; "common";
                    "__init__.py"] in
  let argv := ["generate_structure.py"] in
  tree with_old_init !! file_path = Some (File (Lit "old"))
  ∧ (file_path ∉ write_targets (effects (create_structure (generator argv))))
  ∧ tree (final (main argv with_old_init)) !! file_path
    = Some (File (Lit "old")).
Proof.
  cbn zeta.
  assert (H1 : tree with_old_init
               !! ["prism-carbon-registry"; "packages"; "common"; "__init__.py"]
               = Some (File (Lit "old"))) by (vm_compute; reflexivity).
  assert (H2 : ["prism-carbon-registry"; "packages"; "common"; "__init__.py"]
               ∉ write_targets
                   (effects (create_structure
                               (generator ["generate_structure.py"]))))
    by (apply (proj1 (bool_decide_eq_false _)); vm_compute; reflexivity).
  split; [exact H1|]. split; [exact H2|].
  exact (proj2 (proj2 (effects_stay_under_the_root
                         ["generate_structure.py"] with_old_init))
           _ _ H1 H2).
Defined.

(** C10, the claim as stated, fails for a project name with more than
    one component: run with [out/my-registry] in an empty directory,
    the generator creates [out], which does not lie under
    [out/my-registry]. *)
Lemma nested_root_creates_its_ancestors :
  let argv := ["generate_structure.py"; "out/my-registry"] in
  base_path (generator argv) = ["out"; "my-registry"]
  ∧ tree empty_fs !! ["out"] = None
  ∧ tree (final (main argv empty_fs)) !! ["out"] = Some Dir
  ∧ ¬ (["out"; "my-registry"] `prefix_of` ["out"]).
Proof.
  cbn zeta. split; [vm_compute; reflexivity|]. split; [done|].
  split; [vm_compute; reflexivity|]. by intros [k Hk].
Qed.

(** ** The project name *)

Lemma filter_mkdirs (ps : list path) :
  List.filter touches_tree (map Mkdir ps) = map Mkdir ps.
Proof. induction ps as [|p ps IH]; [done|]. simpl. by rewrite IH. Qed.

Lemma drop_base (b x : path) : drop (length b) (b ++ x) = x.
Proof. by rewrite drop_app_length. Qed.

Lemma filter_print (l : line) (ops : list op) :
  List.filter touches_tree (Print l :: ops) = List.filter touches_tree ops.
Proof. done. Qed.

Lemma filter_calls (ms : list string) :
  List.filter touches_tree (map (λ m, Call m []) ms) = [].
Proof. induction ms as [|m ms IH]; [done|]. simpl. by rewrite IH. Qed.

Lemma filter_root_writes (b : path) (files : dict) :
  List.filter touches_tree
    (flat_map (λ '(f, c), [Mkdir b; OpenWrite (b ++ [f]) c]) files)
  = flat_map (λ '(f, c), [Mkdir b; OpenWrite (b ++ [f]) c]) files.
Proof.
  induction files as [|[f c] files IH]; [done|]. simpl. by rewrite IH.
Qed.

Lemma relative_root_writes (b : path) (files : dict) :
  map (relative_to b)
    (flat_map (λ '(f, c), [Mkdir b; OpenWrite (b ++ [f]) c]) files)
  = flat_map (λ '(f, c), [Mkdir []; OpenWrite [f] c]) files.
Proof.
  induction files as [|[f c] files IH]; [done|].
  cbn [flat_map app map relative_to]. rewrite IH, drop_base.
  by rewrite <- (app_nil_r b) at 2; rewrite drop_base.
Qed.

(** The effects on the tree are the same for every project name, up to
    the root they are placed under. *)
Lemma plan_relative (self : StructureGenerator) :
  map (relative_to (base_path self))
    (List.filter touches_tree (effects (create_structure self)))
  = relative_plan.
Proof.
  rewrite create_structure_script, effects_Script, filter_print.
  unfold directory_phase, root_calls, shared_calls, root_writes.
  rewrite <- (map_map (joinpath (base_path self)) Mkdir).
  rewrite !List.filter_app, filter_mkdirs, !filter_calls, filter_print.
  rewrite filter_root_writes.
  cbn [List.filter]. rewrite ?app_nil_l, ?app_nil_r, map_app, !map_map.
  rewrite relative_root_writes. unfold relative_plan. f_equal.
  apply map_ext_in. intros d Hd%list_elem_of_In%directories_relative.
  cbn [relative_to]. by rewrite joinpath_relative, drop_base.
Qed.

Lemma exec_first_mkdir (l : line) (p : path) (rest : list op) (w : fs) :
  mkdir_clear w p = true →
  node_at (final (exec (Print l :: Mkdir p :: rest) w)) p = Some Dir.
Proof.
  intros Hclear. rewrite exec_final_print, exec_cons. cbn [step].
  destruct (chain_clear_mkdir _ _ _ Hclear) as [w1 Hm].
  unfold mkdir_parents. rewrite Hm. cbn [final]. apply exec_extends.
  destruct p as [|a p]; [done|]. by apply (mkdir_chain_ok _ _ _ _ Hm).
Qed.

Lemma directories_head : ∃ ds, directories = EmptyString :: ds.
Proof. eexists. reflexivity. Qed.

(** The first directory made is the project root itself. *)
Lemma script_head (self : StructureGenerator) :
  ∃ rest, effects (create_structure self)
          = Print (Creating (project_name self))
            :: Mkdir (base_path self) :: rest.
Proof.
  rewrite create_structure_script, effects_Script. unfold directory_phase.
  destruct directories_head as [ds ->]. cbn [map app].
  rewrite joinpath_relative by done.
  change (Path EmptyString) with (@nil string). rewrite app_nil_r.
  by eexists.
Qed.

(** C8. Without a project-name argument [main] runs the generator with
    the default name [prism-carbon-registry]; with arguments it uses
    the first one and ignores any further ones.  The run makes the
    top-level directory of that name ([my-registry] for the argument
    [my-registry]) whenever nothing stands in the way, and what it does
    below the root is the same for every name: the same directories and
    files, as the trees left in an empty directory show. *)
Theorem project_name_argument (w : fs) :
  (∀ prog, main [prog] w = run (__init__ None) w)
  ∧ project_name (__init__ None) = "prism-carbon-registry"
  ∧ base_path (__init__ None) = ["prism-carbon-registry"]
  ∧ (∀ prog name more,
        main (prog :: name :: more) w = run (__init__ (Some name)) w)
  ∧ base_path (__init__ (Some "my-registry")) = ["my-registry"]
  ∧ (∀ self, mkdir_clear w (base_path self) = true →
             node_at (final (run self w)) (base_path self) = Some Dir)
  ∧ (∀ self1 self2,
        map (relative_to (base_path self1))
          (List.filter touches_tree (effects (create_structure self1)))
        = map (relative_to (base_path self2))
            (List.filter touches_tree (effects (create_structure self2))))
  ∧ below ["prism-carbon-registry"]
      (tree (final (main ["generate_structure.py"] empty_fs)))
    = below ["my-registry"]
        (tree (final (main ["generate_structure.py"; "my-registry"] empty_fs))).
Proof.
  split; [done|]. split; [done|]. split; [done|]. split.
  { intros prog name more. unfold main.
    rewrite bool_decide_eq_true_2 by (simpl; lia). done. }
  split; [done|]. split.
  { intros self Hclear. rewrite run_final.
    destruct (script_head self) as [rest ->]. by apply exec_first_mkdir. }
  split; [intros self1 self2; by rewrite !plan_relative|].
  apply (bool_decide_unpack _). vm_compute. exact I.
Qed.

Lemma project_name_argument_witness :
  mkdir_clear empty_fs (base_path (__init__ (Some "my-registry"))) = true
  ∧ node_at (final (run (__init__ (Some "my-registry")) empty_fs))
      ["my-registry"] = Some Dir.
Proof.
  assert (H : mkdir_clear empty_fs (base_path (__init__ (Some "my-registry")))
              = true) by (vm_compute; reflexivity).
  split; [exact H|].
  exact (proj1 (proj2 (proj2 (proj2 (proj2 (proj2
           (project_name_argument empty_fs))))))
           (__init__ (Some "my-registry")) H).
Defined.

(** ** Substituting the service name *)

Lemma starts_with_app (x b : string) : starts_with x (x +:+ b) = true.
Proof.
  induction x as [|c x IH]; [done|]. simpl. by rewrite Ascii.eqb_refl, IH.
Qed.

Lemma contains_here (x b : string) : contains x (x +:+ b) = true.
Proof.
  destruct x; simpl; [by destruct b|].
  by rewrite Ascii.eqb_refl, starts_with_app.
Qed.

Lemma contains_after (x a b : string) :
  contains x b = true → contains x (a +:+ b) = true.
Proof.
  intros H. induction a as [|c a IH]; [done|]. simpl. rewrite IH.
  by rewrite orb_true_r.
Qed.

Lemma starts_with_before (x a b : string) :
  starts_with x a = true → starts_with x (a +:+ b) = true.
Proof.
  revert a. induction x as [|c x IH]; intros a; [done|].
  destruct a as [|d a]; [done|]. simpl. rewrite !andb_true_iff.
  intros [? ?]. split; [done|]. by apply IH.
Qed.

Lemma contains_before (x a b : string) :
  contains x a = true → contains x (a +:+ b) = true.
Proof.
  induction a as [|c a IH].
  - destruct x; [by destruct b|done].
  - simpl. rewrite !orb_true_iff. intros [H|H].
    + left. by apply (starts_with_before x (String c a) b).
    + right. by apply IH.
Qed.

Lemma contains_unlines (x l : string) (ls : list string) :
  In l ls → contains x l = true → contains x (unlines ls) = true.
Proof.
  intros Hin Hx. unfold unlines.
  induction ls as [|l' ls IH]; [done|].
  assert (Hc : ∀ (a : string) r,
             String.concat EmptyString (a :: r)
             = a +:+ String.concat EmptyString r).
  { intros a [|b r]; simpl; [|done].
    induction a as [|c a IHa]; [done|].
    change (String c a = String c (a +:+ EmptyString)). by f_equal. }
  cbn [map]. rewrite Hc. destruct Hin as [->|Hin].
  - by apply contains_before, contains_before.
  - by apply contains_after, IH.
Qed.

(** For every service name, the entry point carries the display form
    in its title, its description and the message of the root
    endpoint, and the raw name in the payload of the health endpoint. *)
Lemma service_main_substitution (service_name : string) :
  let display := title (replace hyphen space service_name) in
  let content := _get_service_main service_name in
  contains ("title=" +:+ quoted (display +:+ " Service")) content = true
  ∧ contains ("description="
              +:+ quoted ("PRISM Carbon Registry - " +:+ display +:+ " Service"))
      content = true
  ∧ contains (quoted "message" +:+ ": "
              +:+ quoted (display +:+ " Service is running")) content = true
  ∧ contains (quoted "status" +:+ ": " +:+ quoted "healthy" +:+ ", "
              +:+ quoted "service" +:+ ": " +:+ quoted service_name)
      content = true.
Proof.
  cbn zeta. unfold _get_service_main.
  set (display := title (replace hyphen space service_name)).
  split; [|split; [|split]].
  - eapply contains_unlines; [do 19 right; left; reflexivity|].
    exact (contains_after _ "    " _
             (contains_here ("title=" +:+ quoted (display +:+ " Service"))
                ",")).
  - eapply contains_unlines; [do 20 right; left; reflexivity|].
    exact (contains_after _ "    " _
             (contains_here
                ("description="
                 +:+ quoted ("PRISM Carbon Registry - " +:+ display
                             +:+ " Service")) ",")).
  - eapply contains_unlines; [do 35 right; left; reflexivity|].
    exact (contains_after _ "    return {" _
             (contains_here
                (quoted "message" +:+ ": "
                 +:+ quoted (display +:+ " Service is running")) "}")).
  - eapply contains_unlines; [do 39 right; left; reflexivity|].
    exact (contains_after _ "    return {" _
             (contains_here
                (quoted "status" +:+ ": " +:+ quoted "healthy" +:+ ", "
                 +:+ quoted "service" +:+ ": " +:+ quoted service_name) "}")).
Qed.

(** C2 (as amended). For the service name [user-service] the display
    form is [User Service]; the generated entry point carries it in the
    title and description fields of the application and in the message
    of the root endpoint.  The handler of the health endpoint carries
    the raw name [user-service] in its payload, and not the display
    form. *)
Theorem user_service_main_substitution :
  let content := _get_service_main "user-service" in
  title (replace hyphen space "user-service") = "User Service"
  ∧ contains ("title=" +:+ quoted "User Service Service") content = true
  ∧ contains ("description="
              +:+ quoted "PRISM Carbon Registry - User Service Service")
      content = true
  ∧ contains (quoted "message" +:+ ": "
              +:+ quoted "User Service Service is running") content = true
  ∧ contains (quoted "status" +:+ ": " +:+ quoted "healthy" +:+ ", "
              +:+ quoted "service" +:+ ": " +:+ quoted "user-service")
      (health_check_handler content) = true
  ∧ contains "User Service" (health_check_handler content) = false.
Proof.
  cbn zeta.
  destruct (service_main_substitution "user-service") as (H1 & H2 & H3 & _).
  split; [reflexivity|]. split; [exact H1|]. split; [exact H2|].
  split; [exact H3|]. split; vm_compute; reflexivity.
Qed.

(** C2, the claim as stated, fails on the health-check field: the
    handler of the health endpoint, from its decorator to the end of
    the file, does not contain the display form. *)
Lemma health_check_has_no_display_form :
  let handler := health_check_handler (_get_service_main "user-service") in
  starts_with ("@app.get(" +:+ quoted "/health" +:+ ")" +:+ nl
               +:+ "async def health_check():") handler = true
  ∧ contains "User Service" handler = false.
Proof. cbn zeta. split; vm_compute; reflexivity. Qed.

(** * Further properties of the generator *)

(** ** How every run ends *)

Lemma script_has_no_summary (self : StructureGenerator) :
  Print StructureCreated ∉ effects (create_structure self).
Proof.
  rewrite create_structure_script, effects_Script.
  intros [?|Hin]%elem_of_cons; [done|].
  apply elem_of_app in Hin as [Hin|Hin].
  { unfold directory_phase in Hin. apply elem_of_app in Hin as [Hin|Hin].
    - by apply list_elem_of_In, in_map_iff in Hin as (d & ? & _).
    - by apply list_elem_of_singleton in Hin. }
  apply elem_of_app in Hin as [Hin|Hin].
  { by apply list_elem_of_In, in_map_iff in Hin as (m & ? & _). }
  apply elem_of_app in Hin as [Hin|Hin].
  - apply list_elem_of_In, in_flat_map in Hin as ([f c] & _ & Ho).
    by destruct Ho as [?|[?|[]]].
  - by apply list_elem_of_In, in_map_iff in Hin as (m & ? & _).
Qed.

(** X1. Whatever the arguments and the directory it runs in, the
    generator never completes: [main] ends with exit status 1, the last
    thing it does is print the error line, and the closing summary is
    never printed. *)
Theorem every_run_exits_with_status_1 (argv : list string) (w : fs) :
  raised (main argv w) = Some (SystemExit 1)
  ∧ (∃ e, last (performed (main argv w)) = Some (Print (ErrorCreating e)))
  ∧ Print StructureCreated ∉ performed (main argv w).
Proof.
  rewrite main_run. generalize (generator argv). intros self.
  destruct (run_script self w) as [e ->]. cbn [raised performed].
  split; [done|]. split; [exists e; by rewrite last_snoc|].
  intros [Hin|Hin]%elem_of_app.
  - apply (script_has_no_summary self).
    eapply elem_of_prefix; [exact Hin|apply exec_prefix].
  - by apply list_elem_of_singleton in Hin.
Qed.

(** ** The builders after the root files *)

(** X2. Each builder that follows [_create_root_files], and
    [_create_service] for every service name, ends with an
    [AttributeError] for a method the class does not define, and until
    then has only called templates: it requests no directory and no
    file. *)
Theorem later_builders_fail_before_touching_the_tree
    (self : StructureGenerator) :
  Forall (λ m : M unit,
            ∃ name, outcome m = inl (AttributeError name)
                    ∧ (name ∉ class_methods)
                    ∧ Forall (λ o, is_call o = true) (effects m))
    (later_builders self)
  ∧ ∀ service_name,
      outcome (_create_service self service_name)
      = inl (AttributeError "_get_test_conftest")
      ∧ effects (_create_service self service_name)
        = [ Call "_get_service_dockerfile" [service_name];
            Call "_get_service_requirements" [service_name];
            Call "_get_service_main" [service_name] ].
Proof.
  split; [|by intros service_name].
  unfold later_builders.
  repeat (apply Forall_cons; split;
          [eexists; split; [reflexivity|];
           split; [apply (proj1 (bool_decide_eq_false _)); reflexivity
                  |by repeat constructor]|]).
  constructor.
Qed.

(** ** What a run never does *)

(** X3. A run never removes anything and never changes the kind of
    what is there: a directory is still a directory after the run, and
    a file is still a file (its content may have been rewritten, or cut
    short by a write that failed). *)
Theorem run_keeps_what_is_there (argv : list string) (w : fs) (q : path) :
  (node_at w q = Some Dir → node_at (final (main argv w)) q = Some Dir)
  ∧ (∀ c, node_at w q = Some (File c) →
          ∃ c', node_at (final (main argv w)) q = Some (File c')).
Proof.
  rewrite main_run, run_final.
  destruct (exec_extends (effects (create_structure (generator argv))) w)
    as (_ & _ & H).
  split; apply H.
Qed.

Lemma run_keeps_what_is_there_witness :
  node_at readme_is_a_directory ["prism-carbon-registry"; "README.md"]
  = Some Dir
  ∧ node_at (final (main ["generate_structure.py"] readme_is_a_directory))
      ["prism-carbon-registry"; "README.md"] = Some Dir.
Proof.
  assert (H : node_at readme_is_a_directory
                ["prism-carbon-registry"; "README.md"] = Some Dir)
    by (vm_compute; reflexivity).
  split; [exact H|].
  exact (proj1 (run_keeps_what_is_there ["generate_structure.py"]
                  readme_is_a_directory
                  ["prism-carbon-registry"; "README.md"]) H).
Defined.

(** ** [_write_file], success and failure *)

(** Making the parent directory leaves the path of the file alone. *)
Lemma mkdir_parent_same (p : path) (w w1 : fs) (e : option exn) :
  rooted p = false → mkdir_parents (parent p) w = (w1, e) →
  node_at w1 p = node_at w p.
Proof.
  intros Hr Hm. pose proof (parent_shorter _ Hr) as Hlen.
  rewrite !node_at_rooted, Hr.
  destruct (decide (tree w1 !! p = tree w !! p)) as [|Hne]; [done|].
  destruct (mkdir_chain_changes _ _ _ _ _ _ Hm Hne) as (k & _ & Hk & Heq).
  rewrite app_nil_l in Heq. subst k. apply prefix_length in Hk. lia.
Qed.

(** What [_write_file] does when nothing stands in its way. *)
Lemma write_file_exec (p : path) (content : text) (w : fs) :
  mkdir_clear w (parent p) = true → writable w p = true →
  ∃ w1, mkdir_parents (parent p) w = (w1, None)
        ∧ node_at w1 p = node_at w p
        ∧ exec [Mkdir (parent p); OpenWrite p content] w
          = {| final := put_file p content (opened p w1);
               performed := [Mkdir (parent p); OpenWrite p content];
               raised := None |}.
Proof.
  intros Hclear Hw.
  destruct (chain_clear_mkdir _ _ _ Hclear) as [w1 Hm]. exists w1.
  pose proof (writable_not_rooted _ _ Hw) as Hr.
  pose proof (mkdir_chain_grows _ _ _ _ _ Hm) as Hg.
  pose proof (mkdir_parent_same p w w1 None Hr Hm) as Hsame.
  split; [done|]. split; [done|].
  rewrite exec_cons. cbn [step]. unfold mkdir_parents. rewrite Hm.
  rewrite exec_cons. cbn [step]. rewrite open_write_ok; [done| |].
  - destruct (parent p) as [|a k] eqn:Hp; [done|].
    by apply (mkdir_chain_ok _ _ _ _ Hm).
  - eapply writable_extends; [by apply grows_extends|done|done].
Qed.

(** X4. [_write_file] succeeds exactly when no regular file and no
    refusal stands on the chain of parent directories, and the path
    itself is neither a directory nor refused and its data can be
    stored. *)
Theorem write_file_succeeds_exactly_when_clear
    (self : StructureGenerator) (directory filename : string)
    (content : text) (w : fs) :
  let file_path :=
    if negb (String.eqb directory EmptyString)
    then joinpath (joinpath (base_path self) directory) filename
    else joinpath (base_path self) filename in
  raised (perform (_write_file self directory filename content) w) = None
  ↔ mkdir_clear w (parent file_path) = true ∧ writable w file_path = true.
Proof.
  intros fp. rewrite write_file_script. fold fp. generalize fp. clear fp.
  intros fp. unfold perform. cbn [effects outcome]. split.
  - rewrite exec_cons. cbn [step].
    destruct (mkdir_parents (parent fp) w) as [w1 [e|]] eqn:Hm; [done|].
    cbn [raised]. rewrite exec_cons. cbn [step].
    destruct (open_write fp content w1) as [w2 [e|]] eqn:Ho; [done|].
    intros _. apply open_write_inv in Ho as (_ & Hpar & Hw1).
    assert (Hclear : mkdir_clear w (parent fp) = true)
      by (by eapply mkdir_chain_clear).
    split; [done|].
    pose proof (writable_not_rooted _ _ Hw1) as Hr.
    pose proof (mkdir_chain_grows _ _ _ _ _ Hm) as Hg.
    pose proof (mkdir_parent_same fp w w1 None Hr Hm) as Hsame.
    rewrite <- Hw1. symmetry. apply writable_made; [|done|by rewrite Hpar].
    by apply grows_extends.
  - intros [Hclear Hw].
    destruct (write_file_exec fp content w Hclear Hw) as (w1 & _ & _ & ->).
    done.
Qed.

Lemma write_file_succeeds_exactly_when_clear_witness :
  mkdir_clear empty_fs
    (parent ["prism-carbon-registry"; "docs"; "README.md"]) = true
  ∧ writable empty_fs ["prism-carbon-registry"; "docs"; "README.md"] = true
  ∧ raised (perform (_write_file (__init__ None) "docs" "README.md"
                       (Lit "text")) empty_fs) = None.
Proof.
  assert (H1 : mkdir_clear empty_fs
                 (parent ["prism-carbon-registry"; "docs"; "README.md"])
               = true) by (vm_compute; reflexivity).
  assert (H2 : writable empty_fs
                 ["prism-carbon-registry"; "docs"; "README.md"] = true)
    by (vm_compute; reflexivity).
  split; [exact H1|]. split; [exact H2|].
  exact (proj2 (write_file_succeeds_exactly_when_clear (__init__ None)
                  "docs" "README.md" (Lit "text") empty_fs)
           (conj H1 H2)).
Defined.

Lemma perform_value {A : Type} (m : M A) (a : A) (w : fs) :
  outcome m = inr a → perform m w = exec (effects m) w.
Proof. unfold perform. intros ->. by destruct (raised _). Qed.

(** X5. When [_write_file] fails, the exception is an [OSError].
    Nothing is removed, and nothing but the file itself is replaced:
    the tree changes only where a missing directory on the way to the
    file was made before the failure, and at the file itself when
    [open] succeeded and the write failed ([OSError] proper); the file
    is then left with what the failed write stored, an old content
    being lost. *)
Theorem failed_write_file_spoils_at_most_the_file
    (self : StructureGenerator) (directory filename : string)
    (content : text) (w : fs) (e : exn) :
  let file_path :=
    if negb (String.eqb directory EmptyString)
    then joinpath (joinpath (base_path self) directory) filename
    else joinpath (base_path self) filename in
  let r := perform (_write_file self directory filename content) w in
  raised r = Some e →
  is_OSError e = true
  ∧ (∀ q n, q ≠ file_path → tree w !! q = Some n →
            tree (final r) !! q = Some n)
  ∧ (∀ q, tree (final r) !! q ≠ tree w !! q →
          (node_at w q = None ∧ tree (final r) !! q = Some Dir
           ∧ q `prefix_of` parent file_path)
          ∨ (q = file_path ∧ e = OSError
             ∧ ∃ part, failing w !! file_path = Some part
                       ∧ tree (final r) !! q = Some (File part))).
Proof.
  intros fp. rewrite write_file_script. fold fp. generalize fp. clear fp.
  intros fp. cbn zeta. rewrite (perform_value _ tt) by done.
  rewrite effects_Script.
  set (ops := [Mkdir (parent fp); OpenWrite fp content]).
  assert (Hr : ∀ x, raised (exec ops w) = Some x →
                    write_targets (performed (exec ops w)) = []).
  { unfold ops. rewrite exec_cons. cbn [step].
    destruct (mkdir_parents (parent fp) w) as [w1 [x|]]; [done|].
    cbn [raised performed]. rewrite exec_cons. cbn [step].
    by destruct (open_write fp content w1) as [w2 [x|]]. }
  intros He. specialize (Hr e He).
  split; [by eapply exec_OSError|]. split.
  - intros q n Hq Hn. apply exec_frame_script; [|done]. unfold ops.
    intros [->|?%elem_of_nil]%elem_of_cons; done.
  - intros q Hq.
    destruct (exec_changes _ _ _ Hq)
      as [(p & Hin & Hp & Hn & Hd)|[Hin|(Hx & Hin & part & Hf & Hpart)]].
    + left. split; [done|]. split; [done|]. unfold ops in Hin.
      apply elem_of_cons in Hin as [[= ->]|Hin]; [done|].
      by apply list_elem_of_singleton in Hin.
    + rewrite Hr in Hin. by apply elem_of_nil in Hin.
    + right. unfold ops in Hin.
      apply elem_of_cons in Hin as [->|?%elem_of_nil]; [|done].
      split; [done|]. split; [congruence|]. by exists part.
Qed.

Lemma failed_write_file_spoils_at_most_the_file_witness :
  let r := perform (_write_file (__init__ None) EmptyString "README.md"
                      (Lit "text")) readme_cannot_be_stored in
  raised r = Some OSError
  ∧ tree readme_cannot_be_stored !! ["prism-carbon-registry"] = Some Dir
  ∧ tree (final r) !! ["prism-carbon-registry"] = Some Dir
  ∧ tree readme_cannot_be_stored !! ["prism-carbon-registry"; "README.md"]
    = Some (File (Lit "old"))
  ∧ tree (final r) !! ["prism-carbon-registry"; "README.md"]
    = Some (File (Lit EmptyString)).
Proof.
  cbn zeta.
  assert (H1 : raised (perform (_write_file (__init__ None) EmptyString
                                  "README.md" (Lit "text"))
                         readme_cannot_be_stored)
               = Some OSError) by (vm_compute; reflexivity).
  assert (H2 : tree readme_cannot_be_stored !! ["prism-carbon-registry"]
               = Some Dir) by (vm_compute; reflexivity).
  split; [exact H1|]. split; [exact H2|]. split.
  - refine (proj1 (proj2 (failed_write_file_spoils_at_most_the_file
                            (__init__ None) EmptyString "README.md"
                            (Lit "text") readme_cannot_be_stored _ H1))
              _ _ _ H2).
    apply (proj1 (bool_decide_eq_false _)). vm_compute. reflexivity.
  - split; vm_compute; reflexivity.
Defined.

(** ** The root files *)

Lemma exec_quiet (ops : list op) (w : fs) :
  Forall (λ o, touches_tree o = false) ops →
  exec ops w = {| final := w; performed := ops; raised := None |}.
Proof.
  induction 1 as [|o ops Ho _ IH]; [done|]. rewrite exec_cons.
  destruct o as [l|m a|p|p c]; try done; cbn [step]; by rewrite IH.
Qed.

Lemma exec_mkdirs_unchanged (ps : list path) (w : fs) (q : path) :
  (∀ p, p ∈ ps → ¬ q `prefix_of` p) →
  node_at (final (exec (map Mkdir ps) w)) q = node_at w q.
Proof.
  intros Hq.
  assert (Hmk : ∀ o, o ∈ map Mkdir ps → write_target o = None).
  { by intros o (p' & <- & _)%list_elem_of_In%in_map_iff. }
  rewrite !node_at_rooted. destruct (rooted q); [done|].
  destruct (decide (tree (final (exec (map Mkdir ps) w)) !! q = tree w !! q))
    as [|Hne]; [done|].
  destruct (exec_changes _ _ _ Hne)
    as [(p & Hin & Hp & _)|[Hin|(_ & Hin & _)]].
  - apply list_elem_of_In, in_map_iff in Hin as (p' & [= ->] & Hin).
    exfalso. apply (Hq p); [by apply list_elem_of_In|done].
  - apply list_elem_of_omap in Hin as (o & Ho & Ht).
    eapply elem_of_prefix in Ho; [|apply exec_prefix].
    apply Hmk in Ho. congruence.
  - apply list_elem_of_omap in Hin as (o & Ho & Ht).
    apply Hmk in Ho. congruence.
Qed.

(** Writing the files of a dictionary into an existing directory [b]. *)
Lemma exec_writes (b : path) (files : dict) :
  ∀ w, (∀ k, k `prefix_of` b → node_at w k = Some Dir) →
       Forall (λ kv, is_anchor kv.1 = false
                     ∧ writable w (b ++ [kv.1]) = true) files →
       NoDup (files.*1) →
       let ops := flat_map (λ '(f, c), [Mkdir b; OpenWrite (b ++ [f]) c])
                    files in
       raised (exec ops w) = None
       ∧ ∀ f c, (f, c) ∈ files →
                node_at (final (exec ops w)) (b ++ [f]) = Some (File c).
Proof.
  induction files as [|[f0 c0] files IH]; intros w Hb HF Hnd; cbn zeta.
  { split; [done|]. by intros f c ?%elem_of_nil. }
  apply Forall_cons in HF as [[Ha Hw] HF]. cbn [fst] in Ha, Hw.
  apply NoDup_cons in Hnd as [Hf0 Hnd]. cbn [flat_map app].
  rewrite exec_cons. cbn [step]. unfold mkdir_parents.
  rewrite mkdir_chain_noop by (intros k _ Hk; by apply Hb).
  rewrite exec_cons. cbn [step].
  pose proof (writable_not_rooted _ _ Hw) as Hr.
  assert (Hpar : node_at w (parent (b ++ [f0])) = Some Dir)
    by (rewrite parent_snoc by done; by apply Hb).
  pose proof (open_write_ok _ c0 _ Hpar Hw) as Hopen.
  rewrite Hopen. cbn [raised final].
  pose proof (open_write_extends _ _ _ _ _ Hopen) as Hext.
  set (w2 := put_file (b ++ [f0]) c0 (opened (b ++ [f0]) w)) in *.
  assert (Hb2 : ∀ k, k `prefix_of` b → node_at w2 k = Some Dir).
  { intros k Hk. unfold w2. rewrite node_at_written by done.
    rewrite decide_False; [by apply Hb|]. intros <-.
    apply prefix_length in Hk. rewrite length_app in Hk. simpl in Hk. lia. }
  assert (HF2 : Forall (λ kv, is_anchor kv.1 = false
                              ∧ writable w2 (b ++ [kv.1]) = true) files).
  { apply Forall_forall. intros [f c] Hin.
    rewrite Forall_forall in HF. destruct (HF _ Hin) as [? Hwf].
    split; [done|]. cbn [fst] in *.
    eapply writable_extends; [done| |done]. unfold w2.
    rewrite node_at_written by done. rewrite decide_False; [done|].
    intros Heq. apply app_inv_head in Heq. injection Heq as <-.
    apply Hf0. apply list_elem_of_fmap. by exists (f0, c). }
  destruct (IH w2 Hb2 HF2 Hnd) as [Hr2 Hc2]. cbn zeta in Hr2, Hc2.
  split; [done|]. intros f c [[= -> ->]|Hin]%elem_of_cons; [|by apply Hc2].
  rewrite node_at_rooted, Hr. apply exec_frame.
  - intros (o & Ho & Ht)%list_elem_of_omap.
    eapply elem_of_prefix in Ho; [|apply exec_prefix].
    apply list_elem_of_In, in_flat_map in Ho as ([f c] & Hin & Ho).
    destruct Ho as [<-|[<-|[]]]; [done|]. injection Ht as Ht.
    apply app_inv_head in Ht. injection Ht as ->.
    apply Hf0. apply list_elem_of_fmap. exists (f0, c).
    split; [done|]. by apply list_elem_of_In.
  - destruct Hext as (_ & -> & _). unfold writable in Hw.
    apply andb_true_iff in Hw as [_ Hw]. by apply bool_decide_eq_true_1 in Hw.
  - unfold w2. rewrite tree_written. by rewrite lookup_insert_eq.
Qed.

Lemma exec_phases (l1 l2 : line) (ps : list path) (calls1 calls2 : list op)
    (b : path) (files : dict) (w : fs) :
  Forall (λ p, mkdir_clear w p = true) ps → b ∈ ps →
  Forall (λ o, touches_tree o = false) calls1 →
  Forall (λ o, touches_tree o = false) calls2 →
  Forall (λ kv, is_anchor kv.1 = false
                ∧ writable w (b ++ [kv.1]) = true
                ∧ ∀ p, p ∈ ps → ¬ (b ++ [kv.1]) `prefix_of` p) files →
  NoDup (files.*1) →
  let ops := Print l1 :: (map Mkdir ps ++ [Print l2]) ++ calls1
             ++ flat_map (λ '(f, c), [Mkdir b; OpenWrite (b ++ [f]) c]) files
             ++ calls2 in
  raised (exec ops w) = None
  ∧ ∀ f c, (f, c) ∈ files →
           node_at (final (exec ops w)) (b ++ [f]) = Some (File c).
Proof.
  intros Hps Hb Hc1 Hc2 Hfiles Hnd. cbn zeta.
  rewrite exec_cons. cbn [step final raised]. rewrite <- app_assoc.
  rewrite exec_app. destruct (exec_mkdirs ps w Hps) as [HrA _].
  rewrite HrA. cbn [final raised].
  pose proof (exec_complete _ _ HrA) as HpA.
  pose proof (exec_extends (map Mkdir ps) w) as HextA.
  set (wA := final (exec (map Mkdir ps) w)) in *.
  assert (HbA : ∀ k, k `prefix_of` b → node_at wA k = Some Dir).
  { intros [|a k] Hk; [done|]. apply (exec_mkdir_performed _ w b); [|done..].
    rewrite HpA. by apply list_elem_of_In, in_map, list_elem_of_In. }
  assert (HfA : Forall (λ kv, is_anchor kv.1 = false
                              ∧ writable wA (b ++ [kv.1]) = true) files).
  { eapply Forall_impl; [exact Hfiles|]. intros [f c] (Ha & Hw & Hp).
    split; [done|]. cbn [fst] in *.
    eapply writable_extends; [done| |done].
    by apply exec_mkdirs_unchanged. }
  rewrite (app_assoc [Print l2] calls1), exec_app.
  rewrite (exec_quiet ([Print l2] ++ calls1)) by (by constructor).
  cbn [raised final]. rewrite exec_app.
  destruct (exec_writes b files wA HbA HfA Hnd) as [HrW HcW].
  cbn zeta in HrW, HcW. rewrite HrW. cbn [final raised].
  rewrite (exec_quiet calls2) by done. cbn [final raised]. done.
Qed.

Lemma root_files_apart (d f : string) (c : text) :
  d ∈ directories → (f, c) ∈ root_files → ¬ [f] `prefix_of` Path d.
Proof.
  assert (H : forallb (λ d, forallb (λ kv : string * text,
                negb (bool_decide ([kv.1] `prefix_of` Path d))) root_files)
                directories = true) by (vm_compute; reflexivity).
  rewrite forallb_forall in H. intros Hd%list_elem_of_In Hf%list_elem_of_In.
  specialize (H d Hd). rewrite forallb_forall in H. specialize (H _ Hf).
  cbn [fst] in H. apply negb_true_iff in H. by apply bool_decide_eq_false in H.
Qed.

Lemma outcome_Script {A : Type} (l : list op) (o : exn + A) :
  outcome (Script l o) = o.
Proof. done. Qed.

Lemma run_of_outcome (self : StructureGenerator) (w : fs) (e : exn) :
  outcome (create_structure self) = inl e → is_Exception e = true →
  raised (exec (effects (create_structure self)) w) = None →
  performed (run self w)
  = effects (create_structure self) ++ [Print (ErrorCreating e)].
Proof.
  intros Ho He Hr. unfold run, perform. cbn zeta. rewrite Hr, Ho.
  cbn [raised]. rewrite He. cbn [performed].
  by rewrite (exec_complete _ _ Hr).
Qed.

Lemma run_completing_script (self : StructureGenerator) (w : fs) :
  raised (exec (effects (create_structure self)) w) = None →
  performed (run self w)
  = effects (create_structure self)
    ++ [Print (ErrorCreating (AttributeError "_get_event_bus"))].
Proof.
  apply run_of_outcome; [|done].
  by rewrite create_structure_script, outcome_Script.
Qed.

(** X6. In a target where nothing stands in the way (the planned
    directories can be made and the seven root paths can be written),
    the run performs its whole script, leaves each root file with the
    content its template produced, and then stops with the
    [AttributeError] for [_get_event_bus]. *)
Theorem root_files_are_written (argv : list string) (w : fs) :
  let self := generator argv in
  forallb (λ d, mkdir_clear w (joinpath (base_path self) d)) directories
  = true →
  forallb (λ kv : string * text, writable w (base_path self ++ [kv.1]))
    root_files = true →
  performed (main argv w)
  = effects (create_structure self)
    ++ [Print (ErrorCreating (AttributeError "_get_event_bus"))]
  ∧ ∀ f c, (f, c) ∈ root_files →
           node_at (final (main argv w)) (base_path self ++ [f])
           = Some (File c).
Proof.
  cbn zeta. rewrite main_run. generalize (generator argv).
  intros self Hdirs Hfiles.
  destruct (exec_phases (Creating (project_name self))
              (CreatedDirectories 159)
              (map (joinpath (base_path self)) directories)
              root_calls shared_calls (base_path self) root_files w)
    as [Hr Hc].
  - apply Forall_forall. intros p Hp%list_elem_of_In.
    apply in_map_iff in Hp as (d & <- & Hd).
    rewrite forallb_forall in Hdirs. by apply Hdirs.
  - destruct directories_head as [ds ->]. cbn [map].
    rewrite joinpath_relative by done.
    change (Path EmptyString) with (@nil string). rewrite app_nil_r. by left.
  - by repeat constructor.
  - by repeat constructor.
  - apply Forall_forall. intros [f c] Hf. cbn [fst].
    split; [|split].
    + assert (Ha : Forall (λ kv : string * text, is_anchor kv.1 = false)
                     root_files) by (by repeat constructor).
      rewrite Forall_forall in Ha. by apply (Ha (f, c)).
    + rewrite forallb_forall in Hfiles.
      by apply (Hfiles (f, c)), list_elem_of_In.
    + intros p Hp%list_elem_of_In Hpre.
      apply in_map_iff in Hp as (d & <- & Hd%list_elem_of_In).
      rewrite joinpath_relative in Hpre by by apply directories_relative.
      apply prefix_app_inv in Hpre. by apply (root_files_apart d f c).
  - apply (bool_decide_unpack _). vm_compute. exact I.
  - cbn zeta in Hr, Hc. rewrite map_map in Hr, Hc.
    assert (Hs : effects (create_structure self)
                 = Print (Creating (project_name self))
                   :: (map (λ d, Mkdir (joinpath (base_path self) d))
                         directories
                       ++ [Print (CreatedDirectories 159)])
                      ++ root_calls
                      ++ flat_map (λ '(f, c),
                            [Mkdir (base_path self);
                             OpenWrite (base_path self ++ [f]) c]) root_files
                      ++ shared_calls)
      by by rewrite create_structure_script.
    rewrite <- Hs in Hr, Hc. split.
    + by apply run_completing_script.
    + intros f c Hf. rewrite run_final. by apply Hc.
Qed.

Lemma root_files_are_written_witness :
  let argv := ["generate_structure.py"] in
  forallb (λ d, mkdir_clear empty_fs
                  (joinpath (base_path (generator argv)) d)) directories
  = true
  ∧ forallb (λ kv : string * text,
               writable empty_fs (base_path (generator argv) ++ [kv.1]))
      root_files = true
  ∧ (".gitignore", Static "_get_gitignore") ∈ root_files
  ∧ node_at (final (main argv empty_fs))
      (base_path (generator argv) ++ [".gitignore"])
    = Some (File (Static "_get_gitignore")).
Proof.
  cbn zeta.
  assert (H1 : forallb (λ d, mkdir_clear empty_fs
                  (joinpath (base_path (generator ["generate_structure.py"])) d))
                 directories = true) by (vm_compute; reflexivity).
  assert (H2 : forallb (λ kv : string * text,
                  writable empty_fs
                    (base_path (generator ["generate_structure.py"])
                     ++ [kv.1])) root_files = true)
    by (vm_compute; reflexivity).
  assert (H3 : (".gitignore", Static "_get_gitignore") ∈ root_files)
    by (apply (bool_decide_unpack _); vm_compute; exact I).
  split; [exact H1|]. split; [exact H2|]. split; [exact H3|].
  exact (proj2 (root_files_are_written ["generate_structure.py"] empty_fs
                  H1 H2) _ _ H3).
Defined.

(** ** Splitting a file path *)

Lemma split_not_nil (sep : ascii) (s : string) : split sep s ≠ [].
Proof.
  destruct s as [|c r]; [done|]. simpl.
  destruct (Ascii.eqb c sep); [done|]. by destruct (split sep r).
Qed.

Lemma concat_cons (sep a : string) (r : list string) :
  r ≠ [] → String.concat sep (a :: r) = a +:+ sep +:+ String.concat sep r.
Proof. by destruct r. Qed.

Lemma join_split (s : string) : join "/" (split slash s) = s.
Proof.
  unfold join. induction s as [|c r IH]; [done|]. cbn [split].
  destruct (Ascii.eqb c slash) eqn:Hc.
  - apply Ascii.eqb_eq in Hc as ->.
    rewrite concat_cons by apply split_not_nil. by rewrite IH.
  - destruct (split slash r) as [|x xs] eqn:Hs; [by apply split_not_nil in Hs|].
    rewrite <- IH. by destruct xs.
Qed.

Lemma split_no_separator (sep : ascii) (s : string) :
  Forall (λ part, sep ∉ chars part) (split sep s).
Proof.
  induction s as [|c r IH]; [repeat constructor; apply not_elem_of_nil|].
  cbn [split]. destruct (Ascii.eqb c sep) eqn:Hc.
  - constructor; [apply not_elem_of_nil|done].
  - destruct (split sep r) as [|x xs]; [repeat constructor|].
    + intros [->|?%elem_of_nil]%elem_of_cons; [|done].
      by rewrite Ascii.eqb_refl in Hc.
    + apply Forall_cons in IH as [Hx Hxs]. constructor; [|done].
      intros [->|?]%elem_of_cons; [|done]. by rewrite Ascii.eqb_refl in Hc.
Qed.

Lemma split_without_separator (sep : ascii) (s : string) :
  sep ∉ chars s → split sep s = [s].
Proof.
  induction s as [|c r IH]; [done|]. intros Hs. cbn [split].
  destruct (Ascii.eqb c sep) eqn:Hc.
  - apply Ascii.eqb_eq in Hc as ->. exfalso. apply Hs. by left.
  - rewrite IH; [done|]. intros ?. apply Hs. by right.
Qed.

Lemma append_associative (a b c : string) :
  (a +:+ b) +:+ c = a +:+ b +:+ c.
Proof.
  induction a as [|x a IH]; [done|].
  change (String x ((a +:+ b) +:+ c) = String x (a +:+ b +:+ c)).
  by rewrite IH.
Qed.

Lemma join_snoc (l : list string) (x : string) :
  l ≠ [] → join "/" (l ++ [x]) = join "/" l +:+ "/" +:+ x.
Proof.
  unfold join. induction l as [|a l IH]; [done|]. intros _.
  destruct l as [|b l]; [done|].
  change ((a :: b :: l) ++ [x]) with (a :: (b :: l) ++ [x]).
  rewrite concat_cons by done. rewrite IH by done.
  rewrite (concat_cons _ a (b :: l)) by done.
  by rewrite !append_associative.
Qed.

(** X7. The way the builders split a file path, [path_parts =
    filepath.split("/")], [directory = "/".join(path_parts[:-1])],
    [filename = path_parts[-1]], loses nothing: the file name contains
    no slash; a path without a slash is its own file name, with an
    empty directory; otherwise the path is the directory, a slash and
    the file name. *)
Theorem filepath_is_directory_and_filename (filepath : string) :
  let path_parts := split slash filepath in
  let directory := join "/" (removelast path_parts) in
  let filename := List.last path_parts EmptyString in
  (slash ∉ chars filename)
  ∧ (slash ∉ chars filepath → directory = EmptyString ∧ filename = filepath)
  ∧ (slash ∈ chars filepath → filepath = directory +:+ "/" +:+ filename).
Proof.
  cbn zeta.
  pose proof (split_not_nil slash filepath) as Hne.
  pose proof (app_removelast_last EmptyString Hne) as Hparts.
  pose proof (split_no_separator slash filepath) as Hno.
  split; [|split].
  - rewrite Hparts in Hno. by apply Forall_app in Hno as [_ [? _]%Forall_cons].
  - intros Hs. by rewrite split_without_separator.
  - intros Hs. destruct (removelast (split slash filepath)) as [|a l] eqn:Hrl.
    + exfalso. simpl in Hparts. rewrite Hparts in Hno.
      apply Forall_cons in Hno as [Hno _].
      pose proof (join_split filepath) as Hj. rewrite Hparts in Hj.
      simpl in Hj. by rewrite Hj in Hno.
    + rewrite <- join_snoc by done. rewrite <- Hparts. by rewrite join_split.
Qed.

Lemma filepath_is_directory_and_filename_witness :
  slash ∈ chars "packages/common/database/base.py"
  ∧ "packages/common/database/base.py"
    = join "/" (removelast (split slash "packages/common/database/base.py"))
      +:+ "/"
      +:+ List.last (split slash "packages/common/database/base.py")
            EmptyString.
Proof.
  assert (H : slash ∈ chars "packages/common/database/base.py")
    by (apply (bool_decide_unpack _); vm_compute; exact I).
  split; [exact H|].
  exact (proj2 (proj2 (filepath_is_directory_and_filename
                         "packages/common/database/base.py")) H).
Defined.

(** ** Where the builders' loop writes *)

Lemma split_append (a b : string) :
  split slash (a +:+ "/" +:+ b) = split slash a ++ split slash b.
Proof.
  induction a as [|c a IH]; [done|].
  change (String c a +:+ "/" +:+ b) with (String c (a +:+ "/" +:+ b)).
  cbn [split]. rewrite IH. destruct (Ascii.eqb c slash); [done|].
  destruct (split slash a) as [|w ws] eqn:Hs; [by apply split_not_nil in Hs|done].
Qed.

Lemma relative_anchor (s : string) : is_absolute s = false → anchor s = [].
Proof.
  destruct s as [|a [|b [|c r]]]; simpl; [done|..]; by intros ->.
Qed.

Lemma Path_relative (s : string) :
  is_absolute s = false → Path s = filter plain_component (split slash s).
Proof. intros H. unfold Path. by rewrite relative_anchor. Qed.

Lemma parts_of_join (l : list string) :
  filter plain_component (split slash (join "/" l))
  = flat_map (λ s, filter plain_component (split slash s)) l.
Proof.
  unfold join. induction l as [|a l IH]; [done|].
  destruct l as [|b l]; [simpl; by rewrite app_nil_r|].
  rewrite concat_cons by done. by rewrite split_append, filter_app, IH.
Qed.

Lemma parts_without_separator (l : list string) :
  Forall (λ part, slash ∉ chars part) l →
  flat_map (λ s, filter plain_component (split slash s)) l
  = filter plain_component l.
Proof.
  induction 1 as [|x l Hx _ IH]; [done|].
  cbn [flat_map]. rewrite IH, split_without_separator by done.
  by rewrite <- filter_app.
Qed.

Lemma joined_relative (l : list string) :
  match l with
  | [] => True
  | t :: _ => t ≠ EmptyString ∧ is_absolute t = false
  end → is_absolute (join "/" l) = false.
Proof.
  destruct l as [|[|c t] r]; [done|by intros [? _]|]. intros [_ H].
  unfold join. by destruct r.
Qed.

Lemma no_separator_relative (s : string) :
  slash ∉ chars s → is_absolute s = false.
Proof.
  destruct s as [|c r]; [done|]. simpl. intros H.
  destruct (Ascii.eqb c slash) eqn:Hc; [|done].
  apply Ascii.eqb_eq in Hc as ->. exfalso. apply H. by left.
Qed.

Lemma joinpath_all_relative (b : path) (top : list string) :
  Forall (λ t, is_absolute t = false) top →
  foldl joinpath b top
  = b ++ flat_map (λ s, filter plain_component (split slash s)) top.
Proof.
  intros H. revert b. induction H as [|t top Ht _ IH]; intros b.
  - simpl. by rewrite app_nil_r.
  - cbn [foldl flat_map]. rewrite IH, joinpath_relative, Path_relative by done.
    by rewrite <- app_assoc.
Qed.

(** The test [if directory] of [_write_file] changes nothing: joining the
    empty string to a path gives the path. *)
Lemma write_file_target (self : StructureGenerator)
    (directory filename : string) (content : text) :
  let file_path := joinpath (joinpath (base_path self) directory) filename in
  _write_file self directory filename content
  = Script [Mkdir (parent file_path); OpenWrite file_path content] (inr tt).
Proof.
  cbn zeta. rewrite write_file_script.
  destruct (String.eqb directory EmptyString) eqn:Hd; [|done].
  apply String.eqb_eq in Hd as ->.
  replace (joinpath (base_path self) EmptyString) with (base_path self); [done|].
  unfold joinpath. change (Path EmptyString) with (@nil string).
  by rewrite app_nil_r.
Qed.

Lemma loop_target (b : path) (top : list string) (filepath : string) :
  Forall (λ t, t ≠ EmptyString ∧ is_absolute t = false) top →
  is_absolute filepath = false →
  joinpath (joinpath b (join "/" (top ++ removelast (split slash filepath))))
    (List.last (split slash filepath) EmptyString)
  = joinpath (foldl joinpath b top) filepath.
Proof.
  intros Htop Hf.
  pose proof (split_not_nil slash filepath) as Hne.
  pose proof (app_removelast_last EmptyString Hne) as Hparts.
  pose proof (split_no_separator slash filepath) as Hno.
  rewrite Hparts in Hno.
  apply Forall_app in Hno as [Hdir [Hname _]%Forall_cons].
  assert (Hrel : is_absolute
                   (join "/" (top ++ removelast (split slash filepath)))
                 = false).
  { apply joined_relative. destruct Htop as [|t top Ht _]; [|done].
    destruct filepath as [|c r]; [done|]. simpl in Hf.
    cbn [split app]. rewrite Hf.
    by destruct (split slash r) as [|w [|w' ws]]. }
  rewrite (joinpath_relative _ filepath) by done.
  rewrite (joinpath_relative _ (List.last _ _))
    by by apply no_separator_relative.
  rewrite joinpath_relative by done.
  rewrite (Path_relative filepath) by done.
  rewrite (Path_relative (List.last _ _)) by by apply no_separator_relative.
  rewrite Path_relative by done.
  rewrite parts_of_join, flat_map_app.
  rewrite (parts_without_separator (removelast _)) by done.
  rewrite (split_without_separator _ (List.last _ _)) by done.
  rewrite joinpath_all_relative
    by (eapply Forall_impl; [done|]; by intros ? [_ ?]).
  rewrite <- !app_assoc. f_equal. f_equal.
  rewrite <- filter_app. by rewrite <- Hparts.
Qed.

(** X8. The loop of the builders, [path_parts = filepath.split("/")],
    [directory = "/".join(top + path_parts[:-1])],
    [filename = path_parts[-1]], [_write_file(directory, filename,
    content)], asks for each entry of its dictionary, in the order of the
    dictionary, the parent directories and then the file at
    [base_path / top / filepath], provided the keys are relative paths
    and [top] is missing or a non-empty relative path; it raises
    nothing itself. *)
Theorem builders_write_each_file_below_top (self : StructureGenerator)
    (top : list string) (files : dict) :
  Forall (λ t, t ≠ EmptyString ∧ is_absolute t = false) top →
  Forall (λ entry, is_absolute entry.1 = false) files →
  effects (write_each self top files)
  = flat_map (λ entry,
      let file_path :=
        joinpath (foldl joinpath (base_path self) top) entry.1 in
      [Mkdir (parent file_path); OpenWrite file_path entry.2]) files
  ∧ outcome (write_each self top files) = inr tt.
Proof.
  intros Htop Hfiles. unfold write_each.
  induction Hfiles as [|[filepath content] files Hf _ [IHe IHo]]; [done|].
  cbn [for_each flat_map fst snd]. cbn zeta.
  rewrite effects_bind, outcome_bind, IHe, IHo, write_file_target.
  cbn zeta. cbn [outcome effects]. by rewrite loop_target.
Qed.

Lemma builders_write_each_file_below_top_witness :
  let self := __init__ None in
  effects (write_each self ["services/user-service"] _get_user_service_files)
  = flat_map (λ entry,
      let file_path :=
        joinpath (foldl joinpath (base_path self) ["services/user-service"])
          entry.1 in
      [Mkdir (parent file_path); OpenWrite file_path entry.2])
      _get_user_service_files
  ∧ outcome
      (write_each self ["services/user-service"] _get_user_service_files)
    = inr tt.
Proof.
  apply (builders_write_each_file_below_top (__init__ None)
           ["services/user-service"] _get_user_service_files).
  - apply (bool_decide_unpack _). vm_compute. exact I.
  - apply (bool_decide_unpack _). vm_compute. exact I.
Defined.

(** ** The display form of a service name *)

Lemma lower_is_no_hyphen (c : ascii) :
  is_lower c = true → Ascii.eqb c hyphen = false.
Proof.
  intros H. destruct (Ascii.eqb c hyphen) eqn:Hc; [|done].
  apply Ascii.eqb_eq in Hc as ->. by vm_compute in H.
Qed.

Lemma title_of_kebab_case (previous_is_cased : bool) (s : string) :
  kebab_case s = true →
  title_from previous_is_cased (replace hyphen space s)
  = join " " match split hyphen s with
             | [] => []
             | w :: ws =>
                 (if previous_is_cased then w else capitalize w)
                 :: map capitalize ws
             end.
Proof.
  revert previous_is_cased. induction s as [|c r IH]; intros b H.
  - by destruct b.
  - unfold kebab_case in H. cbn [chars forallb] in H.
    apply andb_prop in H as [Hc Hr]. cbn [replace split].
    apply orb_prop in Hc as [Hc|Hc].
    + rewrite (lower_is_no_hyphen c Hc). cbn [title_from]. rewrite Hc.
      rewrite (IH true Hr).
      destruct (split hyphen r) as [|w ws] eqn:Hs;
        [by apply split_not_nil in Hs|].
      unfold join. destruct b; by destruct (map capitalize ws).
    + rewrite Hc. apply Ascii.eqb_eq in Hc as ->. cbn [title_from].
      change (is_lower space) with false. change (is_upper space) with false.
      cbn iota. rewrite (IH false Hr).
      destruct (split hyphen r) as [|w ws] eqn:Hs;
        [by apply split_not_nil in Hs|].
      unfold join. by destruct b.
Qed.

Lemma service_main_docstring (service_name : string) :
  starts_with
    (dq +:+ dq +:+ dq +:+ nl
     +:+ title (replace hyphen space service_name)
     +:+ " Service Main Application" +:+ nl)
    (_get_service_main service_name) = true.
Proof.
  unfold _get_service_main. cbn zeta.
  set (display := title (replace hyphen space service_name)).
  unfold unlines. cbn [map]. unfold String.concat at 1.
  fold (String.concat EmptyString).
  match goal with
  | |- starts_with _ (_ +:+ _ +:+ (?b +:+ _) +:+ _ +:+ ?r) = true =>
      generalize r; intros rest
  end.
  rewrite (append_associative display).
  change (starts_with
            (String (ascii_of_nat 34) (String (ascii_of_nat 34)
               (String (ascii_of_nat 34) (String (ascii_of_nat 10)
                  (display +:+ " Service Main Application" +:+ nl)))))
            (String (ascii_of_nat 34) (String (ascii_of_nat 34)
               (String (ascii_of_nat 34) (String (ascii_of_nat 10)
                  ((display +:+ " Service Main Application" +:+ nl)
                   +:+ rest))))) = true).
  cbn [starts_with]. rewrite !Ascii.eqb_refl. cbn [andb].
  apply starts_with_app.
Qed.

(** X9. For a service name made of lower-case letters and hyphens, as
    the ten names of [_create_services] are, the display form
    [service_name.replace("-", " ").title()] is the words between the
    hyphens, each with its first letter in upper case, joined by
    spaces; the entry point of the service opens its docstring with
    it and carries it in its title, its description and the message of
    the root endpoint. *)
Theorem kebab_case_service_shows_its_capitalised_words
    (service_name : string) :
  kebab_case service_name = true →
  let display := join " " (map capitalize (split hyphen service_name)) in
  let content := _get_service_main service_name in
  title (replace hyphen space service_name) = display
  ∧ starts_with
      (dq +:+ dq +:+ dq +:+ nl +:+ display +:+ " Service Main Application"
       +:+ nl) content = true
  ∧ contains ("title=" +:+ quoted (display +:+ " Service")) content = true
  ∧ contains ("description="
              +:+ quoted ("PRISM Carbon Registry - " +:+ display +:+ " Service"))
      content = true
  ∧ contains (quoted "message" +:+ ": "
              +:+ quoted (display +:+ " Service is running")) content = true.
Proof.
  intros Hk. cbn zeta.
  assert (Hd : title (replace hyphen space service_name)
               = join " " (map capitalize (split hyphen service_name))).
  { unfold title. rewrite title_of_kebab_case by done.
    by destruct (split hyphen service_name). }
  rewrite <- Hd.
  destruct (service_main_substitution service_name) as (H1 & H2 & H3 & _).
  split; [done|]. split; [apply service_main_docstring|]. by repeat split.
Qed.

Lemma kebab_case_service_shows_its_capitalised_words_witness :
  Forall (λ service, kebab_case service = true) services
  ∧ title (replace hyphen space "user-service") = "User Service"
  ∧ contains ("title=" +:+ quoted "User Service Service")
      (_get_service_main "user-service") = true.
Proof.
  split; [apply (bool_decide_unpack _); vm_compute; exact I|].
  pose proof (kebab_case_service_shows_its_capitalised_words "user-service"
                eq_refl) as (H1 & _ & H3 & _).
  split; [exact H1|exact H3].
Defined.

(** ** The requirements of a service *)

Lemma dict_get_missing (d : list (string * string)) (k default : string) :
  k ∉ map fst d → dict_get d k default = default.
Proof.
  induction d as [|[k' v] d IH]; [done|]. cbn [map fst dict_get].
  intros H. apply not_elem_of_cons in H as [Hk Hd].
  destruct (String.eqb k k') eqn:He; [by apply String.eqb_eq in He|by apply IH].
Qed.

Lemma append_empty (s : string) : s +:+ EmptyString = s.
Proof.
  induction s as [|c s IH]; [done|].
  change (String c (s +:+ EmptyString) = String c s). by rewrite IH.
Qed.

Lemma append_cancel (a x y : string) : a +:+ x = a +:+ y → x = y.
Proof.
  induction a as [|c a IH]; [done|]. intros H. apply IH.
  change (String c (a +:+ x) = String c (a +:+ y)) in H. by injection H.
Qed.

(** X10. The requirements of every service begin with the thirteen base
    requirements; a service has exactly the base requirements when, and
    only when, its name is not one of the six keys of
    [service_specific]: a missing key adds the empty string. *)
Theorem requirements_extend_the_base (service_name : string) :
  starts_with base_requirements (_get_service_requirements service_name)
  = true
  ∧ (_get_service_requirements service_name = base_requirements
     ↔ service_name ∉ services_with_specific_requirements).
Proof.
  unfold _get_service_requirements. cbn zeta. fold base_requirements.
  match goal with
  | |- context [dict_get ?d _ _] => set (service_specific := d)
  end.
  split; [apply starts_with_app|]. split.
  - intros H Hin.
    assert (He : dict_get service_specific service_name EmptyString
                 = EmptyString).
    { apply (append_cancel base_requirements). by rewrite append_empty. }
    unfold services_with_specific_requirements in Hin.
    repeat (apply elem_of_cons in Hin as [->|Hin]; [by vm_compute in He|]).
    by apply elem_of_nil in Hin.
  - intros Hnot. rewrite dict_get_missing; [apply append_empty|exact Hnot].
Qed.

Lemma requirements_extend_the_base_witness :
  ("file-service" ∉ services_with_specific_requirements)
  ∧ _get_service_requirements "file-service" = base_requirements.
Proof.
  assert (H : "file-service" ∉ services_with_specific_requirements).
  { apply (bool_decide_unpack _). vm_compute. exact I. }
  split; [exact H|].
  exact (proj2 (proj2 (requirements_extend_the_base "file-service")) H).
Defined.

(** ** A regular file in place of the project root *)

Lemma mkdir_chain_blocked (rest : list string) :
  ∀ (pre : path) (w : fs) (c : text),
    rest ≠ [] → node_at w (pre ++ rest) = Some (File c) →
    ∃ e, (mkdir_chain pre rest w).2 = Some e.
Proof.
  induction rest as [|a rest IH]; intros pre w c Hne Hf; [done|].
  cbn [mkdir_chain].
  destruct (node_at w (pre ++ [a])) as [[|x]|] eqn:Hn.
  - destruct rest as [|b rest]; [congruence|].
    apply (IH (pre ++ [a]) w c); [done|]. by rewrite <- app_assoc.
  - by eexists.
  - destruct (refused w (pre ++ [a]) || refused w pre); [by eexists|].
    destruct rest as [|b rest]; [congruence|].
    apply (IH (pre ++ [a]) _ c); [done|].
    rewrite node_at_add_dir by done. rewrite decide_False.
    + by rewrite <- app_assoc.
    + intros Heq. apply (f_equal length) in Heq.
      rewrite !length_app in Heq. simpl in Heq. lia.
Qed.

Lemma run_root_refused (self : StructureGenerator) (w : fs) (e : exn) :
  (mkdir_parents (base_path self) w).2 = Some e →
  run self w
  = {| final := (mkdir_parents (base_path self) w).1;
       performed := [ Print (Creating (project_name self));
                      Print (ErrorCreating e) ];
       raised := Some (SystemExit 1) |}.
Proof.
  intros He. destruct (script_head self) as [rest Hs].
  unfold run, perform. rewrite Hs. rewrite exec_cons. cbn [step].
  rewrite exec_cons. cbn [step].
  destruct (mkdir_parents (base_path self) w) as [w' r] eqn:Hm.
  cbn [snd] in He. subst r. cbn [raised final performed fst].
  by rewrite (is_OSError_Exception _ (mkdir_chain_error _ _ _ _ _ Hm)).
Qed.

(** X11. When a regular file stands where the project root should be,
    the run prints the line that announces the project and the error,
    and exits with status 1: it attempts nothing else, and the file
    stays as it is.  When the project name is a single component the
    error is [FileExistsError] and the tree is exactly what it was. *)
Theorem file_in_place_of_the_root_stops_the_run
    (argv : list string) (w : fs) (c : text) :
  let self := generator argv in
  node_at w (base_path self) = Some (File c) →
  ∃ e,
    performed (main argv w)
    = [Print (Creating (project_name self)); Print (ErrorCreating e)]
    ∧ raised (main argv w) = Some (SystemExit 1)
    ∧ node_at (final (main argv w)) (base_path self) = Some (File c)
    ∧ (length (base_path self) = 1 →
       e = FileExistsError (base_path self) ∧ final (main argv w) = w).
Proof.
  cbn zeta. rewrite main_run. generalize (generator argv). intros self Hf.
  assert (Hne : base_path self ≠ []) by (by intros Heq; rewrite Heq in Hf).
  destruct (mkdir_chain_blocked (base_path self) [] w c Hne Hf) as [e He].
  exists e. rewrite (run_root_refused self w e He).
  cbn [performed raised final]. split; [done|]. split; [done|]. split.
  - destruct (mkdir_parents (base_path self) w) as [w' r] eqn:Hm.
    apply mkdir_chain_grows in Hm. cbn [fst].
    destruct (grows_node_at _ _ (base_path self) Hm) as [->|[Hn _]];
      [done|congruence].
  - intros Hlen. destruct (base_path self) as [|a [|b p]]; [done| |done].
    unfold mkdir_parents in *. cbn [mkdir_chain app] in *.
    rewrite Hf in *. cbn [snd fst] in *. split; [congruence|done].
Qed.

Lemma file_in_place_of_the_root_stops_the_run_witness :
  node_at root_is_a_file (base_path (generator ["generate_structure.py"]))
  = Some (File (Lit "notes"))
  ∧ ∃ e,
      performed (main ["generate_structure.py"] root_is_a_file)
      = [ Print (Creating
                   (project_name (generator ["generate_structure.py"])));
          Print (ErrorCreating e) ]
      ∧ raised (main ["generate_structure.py"] root_is_a_file)
        = Some (SystemExit 1)
      ∧ node_at (final (main ["generate_structure.py"] root_is_a_file))
          (base_path (generator ["generate_structure.py"]))
        = Some (File (Lit "notes"))
      ∧ (length (base_path (generator ["generate_structure.py"])) = 1 →
         e = FileExistsError
               (base_path (generator ["generate_structure.py"]))
         ∧ final (main ["generate_structure.py"] root_is_a_file)
           = root_is_a_file).
Proof.
  assert (H : node_at root_is_a_file
                (base_path (generator ["generate_structure.py"]))
              = Some (File (Lit "notes"))) by (vm_compute; reflexivity).
  split; [exact H|].
  exact (file_in_place_of_the_root_stops_the_run ["generate_structure.py"]
           root_is_a_file (Lit "notes") H).
Defined.
